(** * The [tablerow] tag of liquid: a shallow embedding and its properties

    Source: [src/liquid/builtin/tags/tablerow_tag.py] (classes [TableRow],
    [TableRowDrop], [TablerowNode], function [grouper]) and the exception
    classes of [src/liquid/exceptions.py].

    Python integers are unbounded, so they are [Z].  Text written to a
    [TextIO] buffer is a [string]; a write appends.  A Python object that is
    mutated in place ([TableRow], [TableRowDrop]) is a record, and a method
    returns the record after the call. *)

From Stdlib Require Import ZArith Lia List String Ascii Bool DecimalString.
From Stdlib Require Import SpecFloat.
Import ListNotations.
Local Open Scope Z_scope.

(** ** Python runtime: exceptions and results *)

(** The exceptions this code can raise: Python's built-in ones, and [Error],
    [LiquidTypeError] and [ResourceLimitError] of
    [src/liquid/exceptions.py]. *)
Inductive exception : Type :=
| AssertionError
| AttributeError (attr : string)
| IndexError
| KeyError (key : string)
| OverflowError
| ValueError
| ZeroDivisionError
| Error
| LiquidTypeError
| ResourceLimitError.

(** A call either returns a value or raises. *)
Inductive result (A : Type) : Type :=
| Ok (a : A)
| Raise (e : exception).
Arguments Ok {A} a.
Arguments Raise {A} e.

Definition bind {A B : Type} (r : result A) (k : A -> result B) : result B :=
  match r with
  | Ok a => k a
  | Raise e => Raise e
  end.

Notation "x <- r ;; k" := (bind r (fun x => k))
  (at level 61, r at next level, right associativity).

(** ** Python runtime: values *)

(** The values a template variable can hold, as far as this tag looks at
    them. *)
#[local] Set Warnings "-register-all".
Inductive object : Type :=
| PyNone
| PyBool (b : bool)
| PyInt (z : Z)
| PyStr (s : string)
| PyList (l : list object).

(** [isinstance(v, int)]: [bool] is a subclass of [int]. *)
Definition isinstance_int (v : object) : bool :=
  match v with
  | PyInt _ | PyBool _ => true
  | _ => false
  end.

(** The integer an [int] instance stands for ([True] is 1, [False] is 0). *)
Definition int_value (v : object) : Z :=
  match v with
  | PyInt z => z
  | PyBool true => 1
  | _ => 0
  end.

(** [str(z)], as an f-string formats an integer. *)
Definition str (z : Z) : string := NilZero.string_of_int (Z.to_int z).

(** The double quote character, for the markup's attribute values. *)
Definition dquote : string := String (ascii_of_nat 34) EmptyString.

(** ** Python runtime: true division and [math.ceil]

    [a / b] on two integers is Python's true division: the result is the
    binary64 float nearest to the exact quotient (ties to even), whatever the
    size of [a] and [b]; it raises [ZeroDivisionError] when [b] is zero and
    [OverflowError] when the rounded quotient is beyond the largest float.
    A finite float is kept as [mantissa * 2 ^ exponent] with
    [|mantissa| <= 2 ^ 53] and [exponent >= -1074]. *)
Record float : Type := mkfloat { mantissa : Z; exponent : Z }.

(** The integer nearest to [n / d] for [0 <= n] and [0 < d], ties to even. *)
Definition round_half_even (n d : Z) : Z :=
  let q := n / d in
  match 2 * (n mod d) ?= d with
  | Lt => q
  | Gt => q + 1
  | Eq => if Z.even q then q else q + 1
  end.

(** [floor (log2 (n / d))] for [0 < n] and [0 < d]. *)
Definition quotient_exponent (n d : Z) : Z :=
  let e := Z.log2 n - Z.log2 d in
  if d * 2 ^ Z.max 0 e <=? n * 2 ^ Z.max 0 (- e) then e else e - 1.

Definition int_true_divide (a b : Z) : result float :=
  if b =? 0 then Raise ZeroDivisionError
  else if a =? 0 then Ok (mkfloat 0 0)
  else
    let n := Z.abs a in
    let d := Z.abs b in
    (* the exponent of the last of the 53 bits; -1074 in the subnormal range *)
    let e := Z.max (quotient_exponent n d - 52) (-1074) in
    let m := round_half_even (n * 2 ^ Z.max 0 (- e)) (d * 2 ^ Z.max 0 e) in
    if 2 ^ 1024 * 2 ^ Z.max 0 (- e) <=? m * 2 ^ Z.max 0 e
    then Raise OverflowError
    else Ok (mkfloat (Z.sgn a * Z.sgn b * m) e).

(** [math.ceil(x)] of a finite float: the least integer not below it. *)
Definition math_ceil (x : float) : Z :=
  if 0 <=? exponent x then mantissa x * 2 ^ exponent x
  else - ((- mantissa x) / 2 ^ (- exponent x)).

(** [a % b]: the remainder has the sign of [b]; zero [b] raises. *)
Definition int_mod (a b : Z) : result Z :=
  if b =? 0 then Raise ZeroDivisionError else Ok (a mod b).

(** ** [TableRow]: the helper variables of one tablerow loop *)

Module TableRow.

Record t : Type := mk {
  name : string;
  length : Z;
  ncols : Z;
  item : object;
  first : bool;
  last : bool;
  index : Z;
  index0 : Z;
  rindex : Z;
  rindex0 : Z;
  col : Z;
  col0 : Z;
  col_first : bool;
  col_last : bool;
  row : Z;
  nrows : Z
}.

(** The attribute [keys], the same list in every instance. *)
Definition keys : list string :=
  ["length"; "index"; "index0"; "rindex"; "rindex0"; "first"; "last";
   "col"; "col0"; "col_first"; "col_last"]%string.

(** [TableRow.__init__] *)
Definition init (name : string) (length ncols : Z) : result t :=
  q <- int_true_divide length ncols ;;
  Ok {| name := name;
        length := length;
        ncols := ncols;
        item := PyNone;
        first := false;
        last := false;
        index := 0;
        index0 := -1;
        rindex := length + 1;
        rindex0 := length;
        col := 0;
        col0 := -1;
        col_first := true;
        col_last := false;
        row := 0;
        nrows := math_ceil q |}.

(** [getattr(self, key)] over the class's slots. *)
Definition getattr (self : t) (key : string) : result object :=
  if (key =? "name")%string then Ok (PyStr (name self))
  else if (key =? "length")%string then Ok (PyInt (length self))
  else if (key =? "ncols")%string then Ok (PyInt (ncols self))
  else if (key =? "item")%string then Ok (item self)
  else if (key =? "first")%string then Ok (PyBool (first self))
  else if (key =? "last")%string then Ok (PyBool (last self))
  else if (key =? "index")%string then Ok (PyInt (index self))
  else if (key =? "index0")%string then Ok (PyInt (index0 self))
  else if (key =? "rindex")%string then Ok (PyInt (rindex self))
  else if (key =? "rindex0")%string then Ok (PyInt (rindex0 self))
  else if (key =? "col")%string then Ok (PyInt (col self))
  else if (key =? "col0")%string then Ok (PyInt (col0 self))
  else if (key =? "col_first")%string then Ok (PyBool (col_first self))
  else if (key =? "col_last")%string then Ok (PyBool (col_last self))
  else if (key =? "keys")%string then Ok (PyList (map PyStr keys))
  else if (key =? "row")%string then Ok (PyInt (row self))
  else if (key =? "nrows")%string then Ok (PyInt (nrows self))
  else Raise (AttributeError key).

(** [TableRow.__getitem__] *)
Definition getitem (self : t) (key : string) : result object :=
  if existsb (String.eqb key) keys then getattr self key
  else Raise (KeyError key).

(** [TableRow.__len__] *)
Definition len (self : t) : nat := List.length keys.

(** [TableRow.__iter__]: the keys, in the order of the list. *)
Definition iter (self : t) : list string := keys.

(** [TableRow.step] *)
Definition step (self : t) (item : object) : result t :=
  let index := index self + 1 in
  let index0 := index0 self + 1 in
  let rindex := rindex self - 1 in
  let rindex0 := rindex0 self - 1 in
  let first := if index0 =? 0 then true else false in
  let last := if rindex0 =? 0 then true else false in
  col0 <- int_mod index0 (ncols self) ;;
  let col := col0 + 1 in
  let col_first := if col =? 1 then true else false in
  let col_last := if col =? ncols self then true else false in
  let row := if col =? 1 then row self + 1 else row self in
  Ok {| name := name self;
        length := length self;
        ncols := ncols self;
        item := item;
        first := first;
        last := last;
        index := index;
        index0 := index0;
        rindex := rindex;
        rindex0 := rindex0;
        col := col;
        col0 := col0;
        col_first := col_first;
        col_last := col_last;
        row := row;
        nrows := nrows self |}.

(** [step] called once per element of [items], in order. *)
Fixpoint steps (self : t) (items : list object) : result t :=
  match items with
  | [] => Ok self
  | item :: rest => self' <- step self item ;; steps self' rest
  end.

End TableRow.

(** ** Text buffers

    A method that writes to a [TextIO] buffer takes the text written so far
    and returns the text after the call together with its result; a raised
    exception leaves what was written before it in the buffer. *)

Definition TextIO : Type := string.

Definition IO (A : Type) : Type := TextIO -> result A * TextIO.

Definition ret {A : Type} (a : A) : IO A := fun buffer => (Ok a, buffer).

Definition raise {A : Type} (e : exception) : IO A :=
  fun buffer => (Raise e, buffer).

Definition lift {A : Type} (r : result A) : IO A := fun buffer => (r, buffer).

Definition io_bind {A B : Type} (c : IO A) (k : A -> IO B) : IO B :=
  fun buffer =>
    match c buffer with
    | (Ok a, buffer') => k a buffer'
    | (Raise e, buffer') => (Raise e, buffer')
    end.

Notation "x <~ c ;; k" := (io_bind c (fun x => k))
  (at level 61, c at next level, right associativity).

(** [buffer.write(s)] *)
Definition write (s : string) : IO unit :=
  fun buffer => (Ok tt, (buffer ++ s)%string).

(** [assert cond] *)
Definition assert (cond : bool) : IO unit :=
  if cond then ret tt else raise AssertionError.

(** [l.pop()]: removes and returns the last element of a list. *)
Definition list_pop {A : Type} (l : list A) : result (A * list A) :=
  match l with
  | [] => Raise IndexError
  | x :: _ => Ok (List.last l x, removelast l)
  end.

(** The markup the tag writes: [f'<tr class="row{n}">'] and
    [f'<td class="col{n}">']. *)
Definition tr_open (n : Z) : string :=
  ("<tr class=" ++ dquote ++ "row" ++ str n ++ dquote ++ ">")%string.

Definition td_open (n : Z) : string :=
  ("<td class=" ++ dquote ++ "col" ++ str n ++ dquote ++ ">")%string.

(** ** [TableRowDrop]: a [TableRow] as a context namespace *)

Module TableRowDrop.

Record t : Type := mk {
  tablerow : TableRow.t;
  name : string;
  _exit : list string
}.

(** What a lookup in the namespace returns: the helper object or the
    current item. *)
Inductive value : Type :=
| Helper (tablerow : TableRow.t)
| Item (item : object).

(** [TableRowDrop.__init__] *)
Definition init (name : string) (length ncols : Z) : result t :=
  tablerow <- TableRow.init name length ncols ;;
  Ok {| tablerow := tablerow; name := name; _exit := [] |}.

(** [TableRowDrop.__contains__] *)
Definition contains (self : t) (item : string) : bool :=
  if existsb (String.eqb item) ["tablerowloop"%string; name self]
  then true else false.

(** [TableRowDrop.__getitem__] *)
Definition getitem (self : t) (key : string) : result value :=
  if (key =? "tablerowloop")%string then Ok (Helper (tablerow self))
  else if (key =? name self)%string
       then Ok (Item (TableRow.item (tablerow self)))
       else Raise (KeyError key).

(** [TableRowDrop.__len__] *)
Definition len (self : t) : nat := 2.

(** [TableRowDrop.__iter__] *)
Definition iter (self : t) : list string :=
  ["tablerowloop"%string; name self].

(** [TableRowDrop.step] *)
Definition step (self : t) (item : object) : result t :=
  tablerow <- TableRow.step (tablerow self) item ;;
  Ok {| tablerow := tablerow; name := name self; _exit := _exit self |}.

(** [TableRowDrop.empty_exit_buffer]: the [IndexError] of popping an empty
    list is caught and dropped. *)
Definition empty_exit_buffer (self : t) : IO t :=
  match list_pop (_exit self) with
  | Ok (s, rest) =>
      _ <~ write s ;;
      ret {| tablerow := tablerow self; name := name self; _exit := rest |}
  | Raise IndexError => ret self
  | Raise e => raise e
  end.

(** [TableRowDrop.step_write] *)
Definition step_write (self : t) (item : object) : IO t :=
  self <~ empty_exit_buffer self ;;
  self <~ lift (step self item) ;;
  let tablerow := tablerow self in
  _ <~ (if (TableRow.col tablerow =? 1)
           && (TableRow.row tablerow <=? TableRow.nrows tablerow)
        then write (tr_open (TableRow.row tablerow))
        else ret tt) ;;
  _ <~ write (td_open (TableRow.col tablerow)) ;;
  let closing :=
    if (TableRow.col tablerow =? TableRow.ncols tablerow)
       || (TableRow.index tablerow =? TableRow.length tablerow)
    then "</td></tr>"%string
    else "</td>"%string in
  ret {| tablerow := tablerow; name := name self;
         _exit := _exit self ++ [closing] |}.

End TableRowDrop.

(** ** [grouper]: fixed-length chunks of a sequence *)

(** [sys.maxsize] of a 64-bit CPython. *)
Definition sys_maxsize : Z := 2 ^ 63 - 1.

(** [tuple(islice(iterable, n))]: the next [n] elements, and what is left of
    the iterator.  [islice] refuses a stop outside [0 .. sys.maxsize]. *)
Definition islice {A : Type} (iterable : list A) (n : Z)
  : result (list A * list A) :=
  if (n <? 0) || (sys_maxsize <? n) then Raise ValueError
  else Ok (firstn (Z.to_nat n) iterable, skipn (Z.to_nat n) iterable).

(** [iter(lambda: tuple(islice(iterable, n)), ())] read to its end: chunks are
    taken until one is the empty tuple.  A chunk that is not empty uses up an
    element, so [fuel] above the length of the sequence is never used up. *)
Fixpoint grouper_loop {A : Type} (fuel : nat) (iterable : list A) (n : Z)
  : result (list (list A)) :=
  match fuel with
  | O => Ok []
  | S fuel =>
      chunk <- islice iterable n ;;
      match chunk with
      | ([], _) => Ok []
      | (c, rest) => chunks <- grouper_loop fuel rest n ;; Ok (c :: chunks)
      end
  end.

(** [tuple(grouper(iterable, n))] *)
Definition grouper {A : Type} (iterable : list A) (n : Z)
  : result (list (list A)) :=
  grouper_loop (S (List.length iterable)) iterable n.

(** ** The tag's collaborators: context, loop expression, child block *)

Section Collaborators.

(** The render context the tag is given, an external collaborator. *)
Variable Context : Type.

(** [context.extend(drop)]: the context with the drop as its innermost
    namespace.  The drop is shared with the context, not copied, and a
    template reads a namespace through [__getitem__], [__contains__] and
    [__iter__]; of a [TableRowDrop] these show its [name] and [tablerow], so
    a block rendered after a step sees the stepped helper. *)
Record Scope : Type := extended {
  outer : Context;
  loop_variable : string;
  tablerowloop : TableRow.t
}.

Definition extend (context : Context) (drop : TableRowDrop.t) : Scope :=
  {| outer := context;
     loop_variable := TableRowDrop.name drop;
     tablerowloop := TableRowDrop.tablerow drop |}.

End Collaborators.

Arguments extended {Context} outer loop_variable tablerowloop.
Arguments outer {Context} s.
Arguments loop_variable {Context} s.
Arguments tablerowloop {Context} s.
Arguments extend {Context} context drop.

(** The parsed loop expression [name in iterable cols: n], an external
    collaborator: its name, its optional [cols] expression, how each
    evaluates in a context, and its [num_arguments()]. *)
Module LoopExpression.

Record t (Context : Type) : Type := mk {
  name : string;
  cols : option (Context -> result object);
  evaluate : Context -> result (list object);
  num_arguments : nat
}.
Arguments mk {Context} name cols evaluate num_arguments.
Arguments name {Context} t.
Arguments cols {Context} t.
Arguments evaluate {Context} t.
Arguments num_arguments {Context} t.

End LoopExpression.

(** The child block, an external collaborator.  The buffer is an append-only
    sink, so rendering the block against the extended context is known by
    the text it appends and by whether it then returns or raises. *)
Module BlockNode.

Definition t (Context : Type) : Type := Scope Context -> result unit * string.

(** [block.render(context=ctx, buffer=buffer)] *)
Definition render {Context : Type} (block : t Context) (ctx : Scope Context)
  : IO unit :=
  fun buffer => (fst (block ctx), (buffer ++ snd (block ctx))%string).

End BlockNode.

(** ** The compiler's symbol table *)

Module SymbolTable.

Inductive scope : Type := GLOBAL | LOCAL | FREE.

Record Symbol : Type := symbol {
  name : string;
  index : nat;
  symbol_scope : scope
}.

(** Modelled from the spec: the symbol table ([compiler.symbol_table]), whose
    class is not among the sources.  One table per compiled block: the
    enclosing table, the symbols of this scope (the newest first), the number
    of locals defined ([locals.size]) and the free-variable list, in
    first-reference order. *)
Inductive t : Type :=
| table (outer : option t) (store : list Symbol) (size : nat)
    (free_symbols : list Symbol).

Definition outer (self : t) : option t :=
  let 'table outer _ _ _ := self in outer.
Definition store (self : t) : list Symbol :=
  let 'table _ store _ _ := self in store.
Definition size (self : t) : nat :=
  let 'table _ _ size _ := self in size.
Definition free_symbols (self : t) : list Symbol :=
  let 'table _ _ _ free_symbols := self in free_symbols.

Definition empty : t := table None [] 0 [].

Definition lookup (key : string) (self : t) : option Symbol :=
  find (fun s => (name s =? key)%string) (store self).

(** Modelled from the spec: [define(name)] fails when the scope already has
    the maximum permitted local count; otherwise it allocates the next slot
    index and returns the symbol. *)
Definition define (max_locals : nat) (key : string) (self : t)
  : result (Symbol * t) :=
  if (max_locals <=? size self)%nat then Raise ResourceLimitError
  else
    let s := {| name := key;
                index := size self;
                symbol_scope := match outer self with
                                | None => GLOBAL
                                | Some _ => LOCAL
                                end |} in
    Ok (s, table (outer self) (s :: store self) (S (size self))
             (free_symbols self)).

(** Modelled from the spec: [resolve(name)] searches the current scope; if
    the name is absent it resolves it in the enclosing scope and, if found
    there, records it in the current scope's free-variable list and returns a
    free symbol bound to the list position.  The free symbol is kept in the
    scope, so resolving the same name again returns the same position.  A
    global symbol is returned as it is. *)
Fixpoint resolve (key : string) (self : t) : option Symbol * t :=
  match self with
  | table outer store size free_symbols =>
      match find (fun s => (name s =? key)%string) store with
      | Some s => (Some s, self)
      | None =>
          match outer with
          | None => (None, self)
          | Some enclosing =>
              match resolve key enclosing with
              | (None, enclosing) =>
                  (None, table (Some enclosing) store size free_symbols)
              | (Some original, enclosing) =>
                  match symbol_scope original with
                  | GLOBAL =>
                      (Some original,
                       table (Some enclosing) store size free_symbols)
                  | _ =>
                      let s := {| name := key;
                                  index := List.length free_symbols;
                                  symbol_scope := FREE |} in
                      (Some s,
                       table (Some enclosing) (s :: store) size
                         (free_symbols ++ [original]))
                  end
              end
          end
      end
  end.

End SymbolTable.

(** ** The compiler *)

Module Compiler.

Section Instructions.

Variable Context : Type.

(** Modelled from the spec: the instructions the tag emits
    ([Opcode.CONSTANT], [NIL], [TAB], [STE], [JMP], [STO]), the load that
    [load_symbol] emits for a captured symbol, and one instruction for the
    code of each part whose compilation is delegated: an expression (it
    pushes the expression's value), the loop expression (it pushes the loop
    variable's name and the evaluated sequence) and the child block (it
    renders the block). *)
Inductive Instruction : Type :=
| CONSTANT (index : nat)
| NIL
| TAB (num_arguments num_free : nat)
| STE (slot : nat)
| JMP (target : nat)
| STO
| LOAD (symbol : SymbolTable.Symbol)
| EXPRESSION (expression : Context -> result object)
| LOOP (expression : LoopExpression.t Context)
| BLOCK (block : BlockNode.t Context).

(** [CompiledBlock] of [liquid.object] *)
Record CompiledBlock : Type := compiled_block {
  instructions : list Instruction;
  num_locals : nat;
  num_arguments : nat;
  num_free : nat
}.

(** Modelled from the spec: the compiler ([liquid.Compiler]), whose class is
    not among the sources.  It holds the environment's limit on locals, the
    constant pool, the symbol table of the scope being compiled, and the
    instructions of each open scope, the innermost first. *)
Record t : Type := mk {
  max_locals : nat;
  constants : list CompiledBlock;
  symbol_table : SymbolTable.t;
  scopes : list (list Instruction)
}.

Definition current_instructions (self : t) : list Instruction :=
  hd [] (scopes self).

(** [compiler.emit(opcode, *operands)]: appends to the current scope. *)
Definition emit (instruction : Instruction) (self : t) : t :=
  {| max_locals := max_locals self;
     constants := constants self;
     symbol_table := symbol_table self;
     scopes := (current_instructions self ++ [instruction])
                 :: tl (scopes self) |}.

Definition enter_scope (self : t) : t :=
  {| max_locals := max_locals self;
     constants := constants self;
     symbol_table := SymbolTable.table (Some (symbol_table self)) [] 0 [];
     scopes := [] :: scopes self |}.

(** [compiler.leave_scope()]: returns the instructions of the scope left. *)
Definition leave_scope (self : t) : list Instruction * t :=
  (current_instructions self,
   {| max_locals := max_locals self;
      constants := constants self;
      symbol_table := match SymbolTable.outer (symbol_table self) with
                      | Some enclosing => enclosing
                      | None => symbol_table self
                      end;
      scopes := tl (scopes self) |}).

(** [compiler.symbol_table.define(name)] *)
Definition define (key : string) (self : t)
  : result (SymbolTable.Symbol * t) :=
  defined <- SymbolTable.define (max_locals self) key (symbol_table self) ;;
  Ok (fst defined,
      {| max_locals := max_locals self;
         constants := constants self;
         symbol_table := snd defined;
         scopes := scopes self |}).

(** [compiler.add_constant_block(block)]: the block's index in the pool. *)
Definition add_constant_block (block : CompiledBlock) (self : t) : nat * t :=
  (List.length (constants self),
   {| max_locals := max_locals self;
      constants := constants self ++ [block];
      symbol_table := symbol_table self;
      scopes := scopes self |}).

(** [compiler.load_symbol(symbol)] *)
Definition load_symbol (self : t) (symbol : SymbolTable.Symbol) : t :=
  emit (LOAD symbol) self.

(** Modelled from the spec: [block.compile(compiler)], delegated to
    infrastructure that is not among the sources.  Compiling the block
    resolves the outer names its body refers to, [references], in the order
    of first reference, and emits the block's code. *)
Definition compile_block (references : list string)
    (block : BlockNode.t Context) (self : t) : t :=
  emit (BLOCK block)
    {| max_locals := max_locals self;
       constants := constants self;
       symbol_table :=
         fold_left (fun table key => snd (SymbolTable.resolve key table))
           references (symbol_table self);
       scopes := scopes self |}.

End Instructions.

Arguments CONSTANT {Context} index.
Arguments NIL {Context}.
Arguments TAB {Context} num_arguments num_free.
Arguments STE {Context} slot.
Arguments JMP {Context} target.
Arguments STO {Context}.
Arguments LOAD {Context} symbol.
Arguments EXPRESSION {Context} expression.
Arguments LOOP {Context} expression.
Arguments BLOCK {Context} block.
Arguments compiled_block {Context} instructions num_locals num_arguments
  num_free.
Arguments instructions {Context} c.
Arguments num_locals {Context} c.
Arguments num_arguments {Context} c.
Arguments num_free {Context} c.
Arguments mk {Context} max_locals constants symbol_table scopes.
Arguments max_locals {Context} t.
Arguments constants {Context} t.
Arguments symbol_table {Context} t.
Arguments scopes {Context} t.
Arguments current_instructions {Context} self.
Arguments emit {Context} instruction self.
Arguments enter_scope {Context} self.
Arguments leave_scope {Context} self.
Arguments define {Context} key self.
Arguments add_constant_block {Context} block self.
Arguments load_symbol {Context} self symbol.
Arguments compile_block {Context} references block self.

End Compiler.

(** ** [TablerowNode]: the interpreter path and the compile path *)

Module TablerowNode.

Section Node.

Variable Context : Type.

Record t : Type := mk {
  expression : LoopExpression.t Context;
  block : BlockNode.t Context
}.

(** The inner loop of [render_to_output], [for j, data in enumerate(row)],
    from index [j] on. *)
Fixpoint render_cells (self : t) (context : Context) (row : list object)
    (j : Z) (drop : TableRowDrop.t) : IO TableRowDrop.t :=
  match row with
  | [] => ret drop
  | data :: row =>
      drop <~ lift (TableRowDrop.step drop data) ;;
      _ <~ write (td_open (j + 1)) ;;
      _ <~ BlockNode.render (block self) (extend context drop) ;;
      _ <~ write "</td>" ;;
      render_cells self context row (j + 1) drop
  end.

(** The outer loop, [for i, row in enumerate(loop_iter)], from index [i] on. *)
Fixpoint render_rows (self : t) (context : Context)
    (loop_iter : list (list object)) (i : Z) (drop : TableRowDrop.t)
  : IO TableRowDrop.t :=
  match loop_iter with
  | [] => ret drop
  | row :: loop_iter =>
      _ <~ write (tr_open (i + 1)) ;;
      drop <~ render_cells self context row 0 drop ;;
      _ <~ write "</tr>" ;;
      render_rows self context loop_iter (i + 1) drop
  end.

(** [TablerowNode.render_to_output].  The method returns nothing; the model
    returns the drop as the loops left it. *)
Definition render_to_output (self : t) (context : Context)
  : IO TableRowDrop.t :=
  loop_items <~ lift (LoopExpression.evaluate (expression self) context) ;;
  grouped <~
    match LoopExpression.cols (expression self) with
    | Some cols_expression =>
        cols <~ lift (cols_expression context) ;;
        _ <~ assert (isinstance_int cols) ;;
        loop_iter <~ lift (grouper loop_items (int_value cols)) ;;
        ret (int_value cols, loop_iter)
    | None => ret (1, [loop_items])
    end ;;
  let '(cols, loop_iter) := grouped in
  drop <~ lift (TableRowDrop.init (LoopExpression.name (expression self))
                  (Z.of_nat (List.length loop_items)) cols) ;;
  render_rows self context loop_iter 0 drop.

(** [TablerowNode.compile_node].  [references] are the outer names the child
    block's body refers to. *)
Definition compile_node (references : list string) (self : t)
    (compiler : Compiler.t Context) : result (Compiler.t Context) :=
  let compiler := Compiler.enter_scope compiler in
  defined <- Compiler.define (LoopExpression.name (expression self))
               compiler ;;
  let '(symbol, compiler) := defined in
  defined <- Compiler.define "tablerowloop" compiler ;;
  let compiler := snd defined in
  let top_of_loop := List.length (Compiler.current_instructions compiler) in
  let compiler := Compiler.compile_block references (block self) compiler in
  let compiler :=
    Compiler.emit (Compiler.STE (SymbolTable.index symbol)) compiler in
  let compiler := Compiler.emit (Compiler.JMP top_of_loop) compiler in
  let compiler := Compiler.emit Compiler.STO compiler in
  let free_symbols :=
    SymbolTable.free_symbols (Compiler.symbol_table compiler) in
  let num_block_vars := SymbolTable.size (Compiler.symbol_table compiler) in
  if negb (num_block_vars =? 2)%nat then Raise AssertionError
  else
    let '(instructions, compiler) := Compiler.leave_scope compiler in
    let compiled_block :=
      Compiler.compiled_block instructions 2
        (LoopExpression.num_arguments (expression self))
        (List.length free_symbols) in
    let '(index, compiler) :=
      Compiler.add_constant_block compiled_block compiler in
    let compiler := Compiler.emit (Compiler.CONSTANT index) compiler in
    let compiler :=
      fold_left Compiler.load_symbol (rev free_symbols) compiler in
    let compiler :=
      match LoopExpression.cols (expression self) with
      | Some cols_expression =>
          Compiler.emit (Compiler.EXPRESSION cols_expression) compiler
      | None => Compiler.emit Compiler.NIL compiler
      end in
    let compiler := Compiler.emit (Compiler.LOOP (expression self)) compiler in
    Ok (Compiler.emit
          (Compiler.TAB (Compiler.num_arguments compiled_block)
             (Compiler.num_free compiled_block))
          compiler).

End Node.

Arguments mk {Context} expression block.
Arguments expression {Context} t.
Arguments block {Context} t.
Arguments render_cells {Context} self context row j drop _.
Arguments render_rows {Context} self context loop_iter i drop _.
Arguments render_to_output {Context} self context _.
Arguments compile_node {Context} references self compiler.

End TablerowNode.

(** ** The virtual machine *)

Module VM.

Section Machine.

Variable Context : Type.

(** Modelled from the spec: what the operand stack holds.  An expression's
    value; the nil sentinel; a compiled block of the pool; the loop
    expression's operands; a captured variable, kept as its symbol, since only
    the delegated code of the block reads it. *)
Inductive Operand : Type :=
| Nil
| Obj (value : object)
| Block (block : Compiler.CompiledBlock Context)
| Loop (name : string) (items : list object)
| Captured (symbol : SymbolTable.Symbol).

(** Modelled from the spec: a frame binds one compiled block for the time of
    its activation: its code, the position in it, the captured free variables
    and, in the frame of a tablerow block, its two locals, held by the drop
    (the loop variable is the drop's current item), with the elements of the
    sequence still to come. *)
Record Frame : Type := frame {
  code : list (Compiler.Instruction Context);
  ip : nat;
  free : list Operand;
  loop : option (list object * TableRowDrop.t)
}.

Record t : Type := mk {
  constants : list (Compiler.CompiledBlock Context);
  max_frames : nat;
  frames : list Frame;
  stack : list Operand
}.

Definition jump (target : nat) (f : Frame) : Frame :=
  {| code := code f; ip := target; free := free f; loop := loop f |}.

Definition next (f : Frame) : Frame := jump (S (ip f)) f.

(** The machine with the innermost frame at its next instruction and
    [stack] as the operand stack. *)
Definition continue (self : t) (f : Frame) (callers : list Frame)
    (stack : list Operand) : t :=
  {| constants := constants self;
     max_frames := max_frames self;
     frames := next f :: callers;
     stack := stack |}.

(** Modelled from the spec: the group size [ENTER_ITERATION] is given.  The
    nil sentinel stands for an absent group size, which is 1 for the markup;
    a value that is no integer fails with a [TypeError] condition. *)
Definition group_size (operand : Operand) : IO Z :=
  match operand with
  | Nil => ret 1
  | Obj value =>
      if isinstance_int value then ret (int_value value)
      else raise LiquidTypeError
  | _ => raise Error
  end.

(** Modelled from the spec: [ENTER_ITERATION] ([Opcode.TAB]) pops the
    sequence, the group size, the captured free variables and the compiled
    block; it constructs the drop and, unless the sequence is empty, a frame
    for the block with the first element bound, writing that element's
    opening markup.  A frame beyond the configured nesting depth fails with a
    [ResourceLimit] condition. *)
Definition enter_iteration (self : t) (f : Frame) (callers : list Frame)
    (num_free : nat) : IO t :=
  match stack self with
  | Loop name items :: group :: below =>
      match skipn num_free below with
      | Block block :: stack =>
          if (List.length below <? num_free)%nat then raise IndexError
          else
            cols <~ group_size group ;;
            drop <~ lift (TableRowDrop.init name
                            (Z.of_nat (List.length items)) cols) ;;
            match items with
            | [] => ret (continue self f callers stack)
            | item :: items =>
                if (max_frames self <=? List.length (frames self))%nat
                then raise ResourceLimitError
                else
                  drop <~ TableRowDrop.step_write drop item ;;
                  ret {| constants := constants self;
                         max_frames := max_frames self;
                         frames :=
                           {| code := Compiler.instructions block;
                              ip := 0;
                              free := firstn num_free below;
                              loop := Some (items, drop) |}
                             :: next f :: callers;
                         stack := stack |}
            end
      | _ => raise Error
      end
  | _ => raise Error
  end.

(** Modelled from the spec: the instructions of section 4.5.  [STEP]
    ([Opcode.STE]) advances the helper and binds the next element, writing
    the closing markup of the element before it and the opening markup of
    this one; when the sequence is exhausted it goes to the frame's exit
    instead of the jump that follows it.  [SCOPE_EXIT] ([Opcode.STO]) writes
    the closing markup still pending and pops the frame.  The markup is
    what [TableRowDrop.step_write] and [TableRowDrop.empty_exit_buffer]
    write. *)
Definition execute (context : Context)
    (instruction : Compiler.Instruction Context) (self : t) (f : Frame)
    (callers : list Frame) : IO t :=
  match instruction with
  | Compiler.CONSTANT index =>
      match nth_error (constants self) index with
      | Some block => ret (continue self f callers (Block block :: stack self))
      | None => raise IndexError
      end
  | Compiler.NIL => ret (continue self f callers (Nil :: stack self))
  | Compiler.LOAD symbol =>
      ret (continue self f callers (Captured symbol :: stack self))
  | Compiler.EXPRESSION expression =>
      value <~ lift (expression context) ;;
      ret (continue self f callers (Obj value :: stack self))
  | Compiler.LOOP expression =>
      items <~ lift (LoopExpression.evaluate expression context) ;;
      ret (continue self f callers
             (Loop (LoopExpression.name expression) items :: stack self))
  | Compiler.TAB _ num_free => enter_iteration self f callers num_free
  | Compiler.BLOCK block =>
      match loop f with
      | Some (_, drop) =>
          _ <~ BlockNode.render block (extend context drop) ;;
          ret (continue self f callers (stack self))
      | None => raise Error
      end
  | Compiler.STE _ =>
      match loop f with
      | Some ([], drop) =>
          ret {| constants := constants self;
                 max_frames := max_frames self;
                 frames := jump (ip f + 2) f :: callers;
                 stack := stack self |}
      | Some (item :: items, drop) =>
          drop <~ TableRowDrop.step_write drop item ;;
          ret {| constants := constants self;
                 max_frames := max_frames self;
                 frames :=
                   {| code := code f; ip := S (ip f); free := free f;
                      loop := Some (items, drop) |} :: callers;
                 stack := stack self |}
      | None => raise Error
      end
  | Compiler.JMP target =>
      ret {| constants := constants self;
             max_frames := max_frames self;
             frames := jump target f :: callers;
             stack := stack self |}
  | Compiler.STO =>
      match loop f with
      | Some (_, drop) =>
          _ <~ TableRowDrop.empty_exit_buffer drop ;;
          ret {| constants := constants self;
                 max_frames := max_frames self;
                 frames := callers;
                 stack := stack self |}
      | None => raise Error
      end
  end.

(** How a run ends when nothing is raised. *)
Inductive outcome : Type := Halted | OutOfFuel.

(** Modelled from the spec: the machine runs the innermost frame's next
    instruction until no instruction is left, which is the halted state.
    [fuel] bounds the number of instructions run. *)
Fixpoint run (context : Context) (fuel : nat) (self : t) : IO outcome :=
  match frames self with
  | [] => ret Halted
  | f :: callers =>
      match nth_error (code f) (ip f) with
      | None => ret Halted
      | Some instruction =>
          match fuel with
          | O => ret OutOfFuel
          | S fuel =>
              self <~ execute context instruction self f callers ;;
              run context fuel self
          end
      end
  end.

(** Compiling the node as a whole template and running the code. *)
Definition render_compiled (max_locals max_frames : nat)
    (table : SymbolTable.t) (references : list string)
    (node : TablerowNode.t Context) (context : Context) (fuel : nat)
  : IO outcome :=
  compiler <~ lift (TablerowNode.compile_node references node
                      (Compiler.mk max_locals [] table [[]])) ;;
  run context fuel
    {| constants := Compiler.constants compiler;
       max_frames := max_frames;
       frames := [ {| code := Compiler.current_instructions compiler;
                      ip := 0; free := []; loop := None |} ];
       stack := [] |}.

End Machine.

Arguments Nil {Context}.
Arguments Obj {Context} value.
Arguments Block {Context} block.
Arguments Loop {Context} name items.
Arguments Captured {Context} symbol.
Arguments frame {Context} code ip free loop.
Arguments code {Context} f.
Arguments ip {Context} f.
Arguments free {Context} f.
Arguments loop {Context} f.
Arguments mk {Context} constants max_frames frames stack.
Arguments constants {Context} t.
Arguments max_frames {Context} t.
Arguments frames {Context} t.
Arguments stack {Context} t.
Arguments jump {Context} target f.
Arguments next {Context} f.
Arguments continue {Context} self f callers stack.
Arguments group_size {Context} operand _.
Arguments enter_iteration {Context} self f callers num_free _.
Arguments execute {Context} context instruction self f callers _.
Arguments run {Context} context fuel self _.
Arguments render_compiled {Context} max_locals max_frames table references
  node context fuel _.

End VM.

(** ** The exception classes of [src/liquid/exceptions.py] *)

Module Exceptions.

(** The classes the module defines, and the built-in classes they derive
    from. *)
Inductive class : Type :=
| Exception
| Warning
| UserWarning
| Error
| LiquidInterrupt
| StopRender
| LiquidEnvironmentError
| LiquidSyntaxError
| TemplateInheritanceError
| RequiredBlockError
| LiquidTypeError
| DisabledTagError
| NoSuchFilterFunc
| FilterError
| FilterArgumentError
| FilterValueError
| TemplateNotFound
| ResourceLimitError
| ContextDepthError
| LoopIterationLimitError
| OutputStreamLimitError
| LocalNamespaceLimitError
| LiquidValueError
| UndefinedError
| BreakLoop
| ContinueLoop
| TemplateTraversalError
| LiquidWarning
| LiquidSyntaxWarning
| LiquidTypeWarning
| FilterWarning.

Definition class_eq_dec (a b : class) : {a = b} + {a <> b}.
Proof. decide equality. Defined.

(** The base class each class statement names; of the built-in ones,
    [UserWarning] derives from [Warning] and that from [Exception], the root
    here. *)
Definition base (c : class) : option class :=
  match c with
  | Exception => None
  | Warning => Some Exception
  | UserWarning => Some Warning
  | Error | LiquidInterrupt | StopRender => Some Exception
  | LiquidEnvironmentError | LiquidSyntaxError | LiquidTypeError
  | DisabledTagError | NoSuchFilterFunc | FilterError | FilterArgumentError
  | FilterValueError | TemplateNotFound | ResourceLimitError
  | UndefinedError | TemplateTraversalError => Some Error
  | TemplateInheritanceError | LiquidValueError => Some LiquidSyntaxError
  | RequiredBlockError => Some TemplateInheritanceError
  | ContextDepthError | LoopIterationLimitError | OutputStreamLimitError
  | LocalNamespaceLimitError => Some ResourceLimitError
  | BreakLoop | ContinueLoop => Some LiquidInterrupt
  | LiquidWarning => Some UserWarning
  | LiquidSyntaxWarning | LiquidTypeWarning | FilterWarning =>
      Some LiquidWarning
  end.

(** [issubclass(c, d)]: [d] is [c] or one of its bases.  No class here has
    more than four bases above it. *)
Fixpoint issubclass_within (depth : nat) (c d : class) : bool :=
  if class_eq_dec c d then true
  else match depth, base c with
       | S depth, Some b => issubclass_within depth b d
       | _, _ => false
       end.

Definition issubclass (c d : class) : bool := issubclass_within 4 c d.

(** The table [WARNINGS], in the order it is written. *)
Definition WARNINGS : list (class * class) :=
  [(LiquidSyntaxError, LiquidSyntaxWarning);
   (LiquidTypeError, LiquidTypeWarning);
   (FilterArgumentError, FilterWarning);
   (NoSuchFilterFunc, FilterWarning)].

(** [dict.get(key, default)] on a table of classes: a key is found when it is
    the very class. *)
Definition dict_get (table : list (class * class)) (key default : class)
  : class :=
  match find (fun entry => if class_eq_dec (fst entry) key then true
                           else false) table with
  | Some entry => snd entry
  | None => default
  end.

(** [lookup_warning] *)
Definition lookup_warning (exc : class) : class :=
  dict_get WARNINGS exc LiquidWarning.

(** A [pathlib.Path], as far as this module uses one: what [str(path)] and
    [path.as_posix()] return. *)
Record Path : Type := path { path_str : string; as_posix : string }.

(** The values of the [filename] attribute: a string or a path. *)
Inductive file : Type :=
| FileName (s : string)
| FilePath (p : Path).

(** An instance of [Error]: the positional arguments, and the two keyword
    arguments of [Error.__init__]. *)
Record t : Type := mk {
  args : list object;
  linenum : option Z;
  filename : option file
}.

Section Builtins.

(** Python's [str] of an object and of a tuple of objects, built-ins that are
    no code of this module. *)
Variable object_str : object -> string.
Variable tuple_str : list object -> string.

(** [Exception.__str__]: empty without arguments, the argument's [str] for
    one, the [str] of the tuple for more. *)
Definition exception_str (self : t) : string :=
  match args self with
  | [] => EmptyString
  | [a] => object_str a
  | _ => tuple_str (args self)
  end.

(** The truth value of the [linenum] and [filename] attributes. *)
Definition linenum_truthy (self : t) : bool :=
  match linenum self with
  | Some n => negb (n =? 0)
  | None => false
  end.

Definition filename_truthy (self : t) : bool :=
  match filename self with
  | Some (FileName s) => negb (String.eqb s EmptyString)
  | Some (FilePath _) => true
  | None => false
  end.

(** [f"{self.filename}"] *)
Definition filename_str (self : t) : string :=
  match filename self with
  | Some (FileName s) => s
  | Some (FilePath p) => path_str p
  | None => "None"%string
  end.

(** [Error.__str__] *)
Definition str_ (self : t) : string :=
  let msg := exception_str self in
  let msg :=
    if linenum_truthy self
    then (msg ++ ", on line "
            ++ match linenum self with Some n => str n | None => "None" end)
           %string
    else msg in
  let msg :=
    if filename_truthy self then (msg ++ " of " ++ filename_str self)%string
    else msg in
  msg.

(** [Error.message] *)
Definition message (self : t) : option object :=
  match args self with
  | [] => None
  | a :: _ => Some a
  end.

(** [LiquidSyntaxError.name] *)
Definition name (self : t) : string :=
  match filename self with
  | Some (FilePath p) => as_posix p
  | _ => if filename_truthy self then filename_str self else EmptyString
  end.

(** [TemplateNotFound.__str__] *)
Definition template_not_found_str (self : t) : string :=
  ("template not found " ++ str_ self)%string.

End Builtins.

End Exceptions.

(** * Definitions the statements use *)

(** ** The state after steps *)

(** The exact ceiling of [a / b], the value the specification names. *)
Definition ceiling (a b : Z) : Z := - ((- a) / b).

(** The state [TableRow.step] leaves, field by field. *)
Definition stepped (self : TableRow.t) (item : object) : TableRow.t :=
  let index0 := TableRow.index0 self + 1 in
  let col := index0 mod TableRow.ncols self + 1 in
  {| TableRow.name := TableRow.name self;
     TableRow.length := TableRow.length self;
     TableRow.ncols := TableRow.ncols self;
     TableRow.item := item;
     TableRow.first := index0 =? 0;
     TableRow.last := TableRow.rindex0 self - 1 =? 0;
     TableRow.index := TableRow.index self + 1;
     TableRow.index0 := index0;
     TableRow.rindex := TableRow.rindex self - 1;
     TableRow.rindex0 := TableRow.rindex0 self - 1;
     TableRow.col := col;
     TableRow.col0 := index0 mod TableRow.ncols self;
     TableRow.col_first := col =? 1;
     TableRow.col_last := col =? TableRow.ncols self;
     TableRow.row := if col =? 1 then TableRow.row self + 1
                     else TableRow.row self;
     TableRow.nrows := TableRow.nrows self |}.

(** A drop after one step, when the group size is not 0. *)
Definition drop_stepped (drop : TableRowDrop.t) (item : object)
  : TableRowDrop.t :=
  {| TableRowDrop.tablerow := stepped (TableRowDrop.tablerow drop) item;
     TableRowDrop.name := TableRowDrop.name drop;
     TableRowDrop._exit := TableRowDrop._exit drop |}.

(** The drop after the steps over a row. *)
Definition drop_after (drop : TableRowDrop.t) (row : list object)
  : TableRowDrop.t :=
  fold_left drop_stepped row drop.

(** The helper is at position [k]: [k] steps were taken on a helper
    constructed for [L] items in groups of [c], with [R] rows. *)
Definition positioned (c L R k : Z) (tablerow : TableRow.t) : Prop :=
  TableRow.ncols tablerow = c /\
  TableRow.length tablerow = L /\
  TableRow.nrows tablerow = R /\
  TableRow.index0 tablerow = k - 1 /\
  TableRow.index tablerow = k /\
  TableRow.row tablerow = ceiling k c.

(** ** What is written *)

(** What a caller sees of a run: the exception raised, if any, and the text
    in the buffer. *)
Definition observe {A : Type} (r : result A * TextIO)
  : option exception * TextIO :=
  (match fst r with Ok _ => None | Raise e => Some e end, snd r).

(** The number of places of [s] where [sub] starts. *)
Fixpoint occurrences (sub s : string) : nat :=
  match s with
  | EmptyString => 0
  | String _ s' => (if prefix sub s then 1 else 0) + occurrences sub s'
  end.

(** The bytes of the opening tags: the tag's name, the attribute [class] with
    its value between double quotes (character 34), the value being [row] or
    [col] followed by the number in decimal digits. *)
Definition quotation_mark : string := String "034" EmptyString.

Definition row_tag (n : Z) : string :=
  ("<tr class=" ++ quotation_mark ++ "row"
     ++ NilZero.string_of_int (Z.to_int n) ++ quotation_mark ++ ">")%string.

Definition cell_tag (n : Z) : string :=
  ("<td class=" ++ quotation_mark ++ "col"
     ++ NilZero.string_of_int (Z.to_int n) ++ quotation_mark ++ ">")%string.

(** The opening markup [step_write] writes after the step, and the closing
    markup it leaves pending. *)
Definition opening (tablerow : TableRow.t) : string :=
  String.append
    (if (TableRow.col tablerow =? 1)
        && (TableRow.row tablerow <=? TableRow.nrows tablerow)
     then row_tag (TableRow.row tablerow) else EmptyString)
    (cell_tag (TableRow.col tablerow)).

Definition closing (tablerow : TableRow.t) : string :=
  if (TableRow.col tablerow =? TableRow.ncols tablerow)
     || (TableRow.index tablerow =? TableRow.length tablerow)
  then "</td></tr>"%string else "</td>"%string.

(** The text of the cells of one row, from column index [j] on, for a block
    that returns normally: each cell is its opening tag, the block's text and
    the closing tag. *)
Fixpoint cells_text {Context : Type} (self : TablerowNode.t Context)
    (context : Context) (row : list object) (j : Z) (drop : TableRowDrop.t)
  : string :=
  match row with
  | [] => EmptyString
  | data :: row =>
      let drop := drop_stepped drop data in
      (cell_tag (j + 1)
         ++ snd (TablerowNode.block self (extend context drop))
         ++ "</td>" ++ cells_text self context row (j + 1) drop)%string
  end.

(** The text of whole rows, from row index [i] on, for a block that returns
    normally: each row is its opening tag, its cells and the closing tag. *)
Fixpoint rows_text {Context : Type} (self : TablerowNode.t Context)
    (context : Context) (rows : list (list object)) (i : Z)
    (drop : TableRowDrop.t) : string :=
  match rows with
  | [] => EmptyString
  | row :: rows =>
      (row_tag (i + 1) ++ cells_text self context row 0 drop ++ "</tr>"
         ++ rows_text self context rows (i + 1) (drop_after drop row))%string
  end.

(** The block returns normally in each of the cells of [seen], reached from
    [drop]. *)
Definition returns_in {Context : Type} (self : TablerowNode.t Context)
    (context : Context) (seen : list object) (drop : TableRowDrop.t) : Prop :=
  forall p d rest,
    seen = p ++ d :: rest ->
    fst (TablerowNode.block self (extend context (drop_after drop (p ++ [d]))))
      = Ok tt.

(** ** The loop that drives [step_write] *)

(** The loop that drives [step_write]: once an element is bound the block is
    rendered; then the next element is bound by [step_write], or, when none
    is left, the pending markup is written by [empty_exit_buffer]. *)
Fixpoint loop_tail {Context : Type} (self : TablerowNode.t Context)
    (context : Context) (remaining : list object) (drop : TableRowDrop.t)
  : IO TableRowDrop.t :=
  _ <~ BlockNode.render (TablerowNode.block self) (extend context drop) ;;
  match remaining with
  | [] => TableRowDrop.empty_exit_buffer drop
  | item :: remaining =>
      drop <~ TableRowDrop.step_write drop item ;;
      loop_tail self context remaining drop
  end.

Definition buffered_loop {Context : Type} (self : TablerowNode.t Context)
    (context : Context) (items : list object) (drop : TableRowDrop.t)
  : IO TableRowDrop.t :=
  match items with
  | [] => ret drop
  | item :: remaining =>
      drop <~ TableRowDrop.step_write drop item ;;
      loop_tail self context remaining drop
  end.

(** The same markup written without the buffer: each element's closing
    markup follows its block at once. *)
Fixpoint eager_loop {Context : Type} (self : TablerowNode.t Context)
    (context : Context) (items : list object) (drop : TableRowDrop.t)
  : IO TableRowDrop.t :=
  match items with
  | [] => ret drop
  | item :: items =>
      drop <~ lift (TableRowDrop.step drop item) ;;
      _ <~ write (opening (TableRowDrop.tablerow drop)) ;;
      _ <~ BlockNode.render (TablerowNode.block self) (extend context drop) ;;
      _ <~ write (closing (TableRowDrop.tablerow drop)) ;;
      eager_loop self context items drop
  end.

(** [step_write] called once per element of [items], in order. *)
Fixpoint step_writes (drop : TableRowDrop.t) (items : list object)
  : IO TableRowDrop.t :=
  match items with
  | [] => ret drop
  | item :: items =>
      drop <~ TableRowDrop.step_write drop item ;;
      step_writes drop items
  end.

(** ** The code [compile_node] emits *)

(** The free symbols of the tag's block: what resolving the block's
    references leaves in the block's scope. *)
Definition block_free_symbols (table : SymbolTable.t) (name : string)
    (references : list string) : list SymbolTable.Symbol :=
  SymbolTable.free_symbols
    (fold_left (fun table key => snd (SymbolTable.resolve key table))
       references
       (SymbolTable.table (Some table)
          [SymbolTable.symbol "tablerowloop" 1 SymbolTable.LOCAL;
           SymbolTable.symbol name 0 SymbolTable.LOCAL] 2 [])).

(** The code of the tag's block, and the code that enters it. *)
Definition block_code {Context : Type} (self : TablerowNode.t Context)
  : list (Compiler.Instruction Context) :=
  [Compiler.BLOCK (TablerowNode.block self); Compiler.STE 0; Compiler.JMP 0;
   Compiler.STO].

Definition entry_code {Context : Type} (self : TablerowNode.t Context)
    (cols_expression : Context -> result object)
    (free_symbols : list SymbolTable.Symbol)
  : list (Compiler.Instruction Context) :=
  Compiler.CONSTANT 0
    :: map Compiler.LOAD (rev free_symbols)
    ++ [Compiler.EXPRESSION cols_expression;
        Compiler.LOOP (TablerowNode.expression self);
        Compiler.TAB
          (LoopExpression.num_arguments (TablerowNode.expression self))
          (List.length free_symbols)].

(** ** The binary64 division of the Standard Library

    [SpecFloat] specifies IEEE 754 arithmetic on integers.  Where both
    operands are floats already, Python's true division is the IEEE division
    of the two, so there [int_true_divide] can be compared with [SFdiv]. *)

(** The IEEE quotient of two integers taken as binary64 floats. *)
Definition ieee_divide (a b : Z) : spec_float :=
  SFdiv 53 1024 (binary_normalize 53 1024 a 0 false)
    (binary_normalize 53 1024 b 0 false).

(** A float of the model and a float of [SpecFloat] are the same number. *)
Definition same_value (x : float) (y : spec_float) : bool :=
  match y with
  | S754_zero _ => mantissa x =? 0
  | S754_finite s m e =>
      let low := Z.min (exponent x) e in
      mantissa x * 2 ^ (exponent x - low)
      =? (if s then Z.neg m else Z.pos m) * 2 ^ (e - low)
  | _ => false
  end.

(** The model's quotient is the IEEE quotient. *)
Definition agrees_with_ieee (a b : Z) : bool :=
  match int_true_divide a b with
  | Ok x => same_value x (ieee_divide a b)
  | Raise _ => false
  end.

(** Operands to compare the two on: small ones of both signs, and large
    ones up to [2 ^ 53]. *)
Definition sample_dividends : list Z :=
  map Z.of_nat (seq 0 60)
    ++ map (fun n => - Z.of_nat n) (seq 1 30)
    ++ [2 ^ 53; 2 ^ 53 - 1; 2 ^ 52 + 1; 10 ^ 15 + 7; 123456789012345;
        2 ^ 31 - 1; 2 ^ 40 + 12345].

Definition sample_divisors : list Z :=
  map (fun n => Z.of_nat n) (seq 1 60)
    ++ map (fun n => - Z.of_nat n) (seq 1 10)
    ++ [2 ^ 53; 2 ^ 53 - 1; 2 ^ 52 + 3; 10 ^ 15 + 3; 987654321;
        2 ^ 31 - 1; 2 ^ 40 + 54321].

(** ** Sample inputs *)

(** A node over the trivial context: its [cols] expression and its sequence
    are constants, and its block writes the helper's [col]. *)
Definition sample_node (cols : option object) (items : list object)
  : TablerowNode.t unit :=
  TablerowNode.mk
    (LoopExpression.mk "x" (option_map (fun v _ => Ok v) cols)
       (fun _ => Ok items) 1)
    (fun ctx => (Ok tt, str (TableRow.col (tablerowloop ctx)))).

(** The same with a block that writes nothing. *)
Definition bare_node (cols : option object) (items : list object)
  : TablerowNode.t unit :=
  TablerowNode.mk (TablerowNode.expression (sample_node cols items))
    (fun _ => (Ok tt, EmptyString)).

(** The same with a block that writes [!] and raises in the cell where
    [tablerowloop.index] is [k], and writes nothing elsewhere. *)
Definition failing_node (cols : option object) (items : list object) (k : Z)
  : TablerowNode.t unit :=
  TablerowNode.mk (TablerowNode.expression (sample_node cols items))
    (fun ctx => if TableRow.index (tablerowloop ctx) =? k
                then (Raise Error, "!"%string)
                else (Ok tt, EmptyString)).

(** An enclosing scope with two locals, inside a global scope with one
    global. *)
Definition sample_table : SymbolTable.t :=
  SymbolTable.table
    (Some (SymbolTable.table None
             [SymbolTable.symbol "g" 0 SymbolTable.GLOBAL] 1 []))
    [SymbolTable.symbol "b" 1 SymbolTable.LOCAL;
     SymbolTable.symbol "a" 0 SymbolTable.LOCAL] 2 [].

Definition sample_items : list object :=
  [PyInt 1; PyInt 2; PyInt 3; PyInt 4; PyInt 5].

(** * Properties *)

(** ** Strings and results *)

Lemma append_assoc (a b c : string) :
  ((a ++ b) ++ c = a ++ (b ++ c))%string.
Proof.
  induction a as [|ch a IH]; simpl; [reflexivity | now rewrite IH].
Qed.

Lemma append_nil_r (a : string) : (a ++ EmptyString = a)%string.
Proof.
  induction a as [|ch a IH]; simpl; [reflexivity | now rewrite IH].
Qed.

(** The tags the code writes are the bytes above. *)
Lemma tr_open_bytes (n : Z) : tr_open n = row_tag n.
Proof. reflexivity. Qed.

Lemma td_open_bytes (n : Z) : td_open n = cell_tag n.
Proof. reflexivity. Qed.

Lemma int_mod_ok (a b : Z) : b <> 0 -> int_mod a b = Ok (a mod b).
Proof.
  intros Hb. unfold int_mod.
  destruct (Z.eqb_spec b 0) as [E|_]; [contradiction | reflexivity].
Qed.

(** ** One step of the helper *)

Lemma step_stepped (self : TableRow.t) (item : object) :
  TableRow.ncols self <> 0 ->
  TableRow.step self item = Ok (stepped self item).
Proof.
  intros Hn. unfold TableRow.step, stepped.
  rewrite (int_mod_ok _ _ Hn). cbn [bind].
  repeat match goal with
         | |- context [if ?b then true else false] =>
             replace (if b then true else false) with b by now destruct b
         end.
  reflexivity.
Qed.

Lemma step_zero_ncols (self : TableRow.t) (item : object) :
  TableRow.ncols self = 0 ->
  TableRow.step self item = Raise ZeroDivisionError.
Proof.
  intros Hn. unfold TableRow.step, int_mod. now rewrite Hn.
Qed.

(** C2.  On a helper whose group size [ncols] is positive, one call
    [step(item)] returns normally and leaves: [item] set; [index] and
    [index0] one more, [rindex] and [rindex0] one less; [first] true exactly
    when the new [index0] is 0 and [last] exactly when the new [rindex0] is 0;
    [col0 = index0 mod ncols] and [col = col0 + 1]; [col_first] true exactly
    when [col = 1] and [col_last] exactly when [col = ncols]; [row] one more
    exactly when [col = 1]; and [name], [length], [ncols] and [nrows] as they
    were. *)
Theorem step_updates_fields (self : TableRow.t) (item : object) :
  1 <= TableRow.ncols self ->
  exists self',
    TableRow.step self item = Ok self' /\
    TableRow.item self' = item /\
    TableRow.index self' = TableRow.index self + 1 /\
    TableRow.index0 self' = TableRow.index0 self + 1 /\
    TableRow.rindex self' = TableRow.rindex self - 1 /\
    TableRow.rindex0 self' = TableRow.rindex0 self - 1 /\
    (TableRow.first self' = true <-> TableRow.index0 self' = 0) /\
    (TableRow.last self' = true <-> TableRow.rindex0 self' = 0) /\
    TableRow.col0 self' = TableRow.index0 self' mod TableRow.ncols self /\
    TableRow.col self' = TableRow.col0 self' + 1 /\
    (TableRow.col_first self' = true <-> TableRow.col self' = 1) /\
    (TableRow.col_last self' = true <->
     TableRow.col self' = TableRow.ncols self) /\
    (TableRow.col self' = 1 -> TableRow.row self' = TableRow.row self + 1) /\
    (TableRow.col self' <> 1 -> TableRow.row self' = TableRow.row self) /\
    TableRow.name self' = TableRow.name self /\
    TableRow.length self' = TableRow.length self /\
    TableRow.ncols self' = TableRow.ncols self /\
    TableRow.nrows self' = TableRow.nrows self.
Proof.
  intros Hn. exists (stepped self item).
  split; [apply step_stepped; lia|].
  unfold stepped; cbn.
  repeat split; try apply Z.eqb_eq; intros H.
  - now rewrite (proj2 (Z.eqb_eq _ _) H).
  - now destruct (Z.eqb_spec ((TableRow.index0 self + 1)
                                mod TableRow.ncols self + 1) 1).
Qed.

Lemma step_updates_fields_witness :
  exists self',
    TableRow.step (TableRow.mk "x" 5 3 PyNone false false 0 (-1) 6 5 0 (-1)
                     true false 0 2) (PyInt 7) = Ok self' /\
    TableRow.index self' = 1 /\ TableRow.col self' = 1 /\
    TableRow.row self' = 1 /\ TableRow.first self' = true.
Proof.
  destruct (step_updates_fields
              (TableRow.mk "x" 5 3 PyNone false false 0 (-1) 6 5 0 (-1)
                 true false 0 2) (PyInt 7))
    as (self' & Hstep & _ & Hindex & _ & _ & _ & Hfirst & _ & _ & _ & _); 
    [cbn; lia|].
  exists self'. split; [exact Hstep|].
  revert Hstep. cbn. intros [= <-]. cbn. repeat split.
Defined.

(** ** Any number of steps *)

Lemma steps_app (self : TableRow.t) (l1 l2 : list object) :
  TableRow.steps self (l1 ++ l2) =
  (self' <- TableRow.steps self l1 ;; TableRow.steps self' l2).
Proof.
  revert self. induction l1 as [|x l1 IH]; intros self; cbn; [reflexivity|].
  destruct (TableRow.step self x) as [self1|e]; cbn; [apply IH | reflexivity].
Qed.

(** The counters after the steps over [items]: each moved by the number of
    items; what the constructor fixed stays. *)
Lemma steps_counters (items : list object) (self : TableRow.t) :
  TableRow.ncols self <> 0 ->
  exists self',
    TableRow.steps self items = Ok self' /\
    TableRow.ncols self' = TableRow.ncols self /\
    TableRow.length self' = TableRow.length self /\
    TableRow.name self' = TableRow.name self /\
    TableRow.nrows self' = TableRow.nrows self /\
    TableRow.index self' = TableRow.index self + Z.of_nat (List.length items) /\
    TableRow.index0 self' =
      TableRow.index0 self + Z.of_nat (List.length items) /\
    TableRow.rindex self' =
      TableRow.rindex self - Z.of_nat (List.length items) /\
    TableRow.rindex0 self' =
      TableRow.rindex0 self - Z.of_nat (List.length items).
Proof.
  revert self. induction items as [|x items IH]; intros self Hn.
  - exists self. cbn. repeat split; lia.
  - cbn [TableRow.steps]. rewrite (step_stepped _ _ Hn). cbn [bind].
    destruct (IH (stepped self x)) as (self' & Hs & H1 & H2 & H3 & H4 & H5 & H6 & H7 & H8);
      [exact Hn|].
    exists self'. split; [exact Hs|].
    rewrite H1, H2, H3, H4, H5, H6, H7, H8. cbn [stepped TableRow.ncols
      TableRow.length TableRow.name TableRow.nrows TableRow.index
      TableRow.index0 TableRow.rindex TableRow.rindex0 List.length].
    repeat split; lia.
Qed.

(** The last step decides the derived fields. *)
Lemma steps_last (items : list object) (x : object) (self : TableRow.t) :
  TableRow.ncols self <> 0 ->
  exists before,
    TableRow.steps self items = Ok before /\
    TableRow.steps self (items ++ [x]) = Ok (stepped before x) /\
    TableRow.ncols before = TableRow.ncols self /\
    TableRow.length before = TableRow.length self /\
    TableRow.index0 before =
      TableRow.index0 self + Z.of_nat (List.length items) /\
    TableRow.rindex0 before =
      TableRow.rindex0 self - Z.of_nat (List.length items).
Proof.
  intros Hn.
  destruct (steps_counters items self Hn)
    as (before & Hs & H1 & H2 & _ & _ & _ & H6 & _ & H8).
  exists before. split; [exact Hs|]. split; [|now repeat split].
  rewrite steps_app, Hs. cbn [bind TableRow.steps].
  rewrite step_stepped by congruence. reflexivity.
Qed.

(** What the constructor fixes, when it returns. *)
Lemma init_fields (name : string) (length ncols : Z) (self : TableRow.t) :
  TableRow.init name length ncols = Ok self ->
  TableRow.name self = name /\ TableRow.length self = length /\
  TableRow.ncols self = ncols /\ TableRow.item self = PyNone /\
  TableRow.index self = 0 /\ TableRow.index0 self = -1 /\
  TableRow.rindex self = length + 1 /\ TableRow.rindex0 self = length /\
  TableRow.row self = 0 /\ TableRow.col self = 0 /\
  exists q, int_true_divide length ncols = Ok q /\
            TableRow.nrows self = math_ceil q.
Proof.
  unfold TableRow.init.
  destruct (int_true_divide length ncols) as [q|e]; cbn [bind];
    [|discriminate].
  intros [= <-]. cbn. repeat split. now exists q.
Qed.

(** C5.  On a helper constructed with a positive group size, after any
    number of steps greater than zero, [1 <= col <= ncols], [col_first] is
    true exactly when [col = 1], and [col_last] exactly when
    [col = ncols]. *)
Theorem column_invariant (name : string) (length ncols : Z)
    (self : TableRow.t) (items : list object) :
  1 <= ncols ->
  TableRow.init name length ncols = Ok self ->
  items <> [] ->
  exists self',
    TableRow.steps self items = Ok self' /\
    1 <= TableRow.col self' <= ncols /\
    (TableRow.col_first self' = true <-> TableRow.col self' = 1) /\
    (TableRow.col_last self' = true <-> TableRow.col self' = ncols).
Proof.
  intros Hn Hinit Hitems.
  destruct (init_fields _ _ _ _ Hinit) as (_ & _ & Hncols & _).
  destruct (exists_last Hitems) as (l & x & ->).
  destruct (steps_last l x self) as (before & _ & Hs & Hb & _);
    [lia|].
  exists (stepped before x). split; [exact Hs|].
  unfold stepped; cbn. rewrite Hb, Hncols.
  pose proof (Z.mod_pos_bound (TableRow.index0 before + 1) ncols) as Hm.
  repeat split; try apply Z.eqb_eq; try lia.
Qed.

Lemma column_invariant_witness :
  exists self self',
    TableRow.init "x" 5 3 = Ok self /\
    TableRow.steps self [PyInt 1; PyInt 2; PyInt 3; PyInt 4; PyInt 5]
      = Ok self' /\
    1 <= TableRow.col self' <= 3 /\
    (TableRow.col_first self' = true <-> TableRow.col self' = 1) /\
    (TableRow.col_last self' = true <-> TableRow.col self' = 3).
Proof.
  assert (Hinit : exists self, TableRow.init "x" 5 3 = Ok self)
    by (vm_compute; eexists; reflexivity).
  destruct Hinit as (self & Hinit).
  exists self.
  destruct (column_invariant "x" 5 3 self
              [PyInt 1; PyInt 2; PyInt 3; PyInt 4; PyInt 5])
    as (self' & H); [lia | exact Hinit | discriminate |].
  exists self'. split; [exact Hinit | exact H].
Defined.

(** ** True division and the ceiling *)

Lemma ceiling_spec (x d : Z) :
  0 < d -> (ceiling x d - 1) * d < x <= ceiling x d * d.
Proof.
  intros Hd. unfold ceiling.
  pose proof (Z.div_mod (- x) d ltac:(lia)) as E.
  pose proof (Z.mod_pos_bound (- x) d Hd) as B.
  nia.
Qed.

Lemma ceiling_unique (x d k : Z) :
  0 < d -> (k - 1) * d < x <= k * d -> ceiling x d = k.
Proof.
  intros Hd Hk. pose proof (ceiling_spec x d Hd) as Hc.
  assert (ceiling x d < k + 1) by nia.
  assert (k < ceiling x d + 1) by nia.
  lia.
Qed.

Lemma round_half_even_le (n d N : Z) :
  0 < d -> n <= N * d -> round_half_even n d <= N.
Proof.
  intros Hd Hn. unfold round_half_even.
  pose proof (Z.div_mod n d ltac:(lia)) as E.
  pose proof (Z.mod_pos_bound n d Hd) as B.
  assert (Hq : n / d <= N) by nia.
  destruct (Z.compare_spec (2 * (n mod d)) d) as [C|C|C];
    [destruct (Z.even (n / d))| |]; nia.
Qed.

Lemma round_half_even_gt (n d N : Z) :
  0 < d -> 2 * N * d + d < 2 * n -> N < round_half_even n d.
Proof.
  intros Hd Hn. unfold round_half_even.
  pose proof (Z.div_mod n d ltac:(lia)) as E.
  pose proof (Z.mod_pos_bound n d Hd) as B.
  assert (Hq : N <= n / d) by nia.
  destruct (Z.compare_spec (2 * (n mod d)) d) as [C|C|C];
    [destruct (Z.even (n / d))| |]; nia.
Qed.

Lemma round_half_even_nonneg (n d : Z) :
  0 <= n -> 0 < d -> 0 <= round_half_even n d.
Proof.
  intros Hn Hd. unfold round_half_even.
  pose proof (Z.div_pos n d Hn Hd).
  destruct (2 * (n mod d) ?= d); [destruct (Z.even (n / d))| |]; lia.
Qed.

Lemma quotient_exponent_le (n d : Z) :
  quotient_exponent n d <= Z.log2 n - Z.log2 d.
Proof.
  unfold quotient_exponent.
  destruct (_ <=? _); lia.
Qed.

(** Where the float quotient is exact enough: a dividend below [2 ^ 53] and
    a divisor below [2 ^ 1075]. *)
Lemma true_divide_ceil (a b : Z) :
  0 <= a < 2 ^ 53 -> 1 <= b < 2 ^ 1075 ->
  exists q, int_true_divide a b = Ok q /\ math_ceil q = ceiling a b.
Proof.
  intros Ha Hb. unfold int_true_divide.
  destruct (Z.eqb_spec b 0) as [?|_]; [lia|].
  destruct (Z.eqb_spec a 0) as [->|Ha0].
  { eexists; split; [reflexivity|]. reflexivity. }
  rewrite (Z.abs_eq a), (Z.abs_eq b) by lia.
  replace (Z.sgn a * Z.sgn b) with 1
    by (rewrite (Z.sgn_pos a), (Z.sgn_pos b); lia).
  pose proof (quotient_exponent_le a b) as He1.
  assert (Hla : Z.log2 a < 53) by (apply Z.log2_lt_pow2; lia).
  pose proof (Z.log2_nonneg b) as Hlb.
  pose proof (Z.log2_spec b ltac:(lia)) as Hb2.
  set (e1 := quotient_exponent a b) in *.
  destruct (Z.max_spec (e1 - 52) (-1074)) as [[Hlt He]|[Hge He]];
    rewrite He; clear He.
  - (* subnormal range *)
    change (Z.max 0 (-1074)) with 0. change (Z.max 0 (- -1074)) with 1074.
    rewrite Z.pow_0_r, !Z.mul_1_r.
    set (P := 2 ^ 1074).
    assert (HP : 0 < P) by (apply Z.pow_pos_nonneg; lia).
    assert (HbP : b < 2 * P)
      by (unfold P; change 2 with (2 ^ 1) at 1;
          rewrite <- Z.pow_add_r by lia; exact (proj2 Hb)).
    pose proof (ceiling_spec a b ltac:(lia)) as Hk.
    set (k := ceiling a b) in *.
    pose proof (round_half_even_le (a * P) b (k * P) ltac:(lia) ltac:(nia))
      as Hle.
    pose proof (round_half_even_gt (a * P) b ((k - 1) * P) ltac:(lia)
                  ltac:(nia)) as Hgt.
    set (m := round_half_even (a * P) b) in *.
    assert (Hka : k <= a) by nia.
    assert (H1024 : 2 ^ 53 * P < 2 ^ 1024 * P)
      by (apply Z.mul_lt_mono_pos_r; [exact HP | reflexivity]).
    destruct (Z.leb_spec (2 ^ 1024 * P) m) as [Hov|_]; [nia|].
    eexists; split; [reflexivity|].
    unfold math_ceil; cbn [mantissa exponent].
    change (0 <=? -1074) with false. cbv iota.
    rewrite Z.mul_1_l. change (- -1074) with 1074. fold P.
    change (- (- m / P)) with (ceiling m P).
    apply ceiling_unique; lia.
  - (* e1 - 52 >= -1074 *)
    destruct (Z.leb_spec 0 (e1 - 52)) as [Hpos|Hneg].
    + (* only for b = 1 and a in the last binade *)
      assert (He : e1 - 52 = 0) by lia. rewrite He.
      assert (Hb1 : b = 1)
        by (assert (Z.log2 b = 0) as L by lia;
            apply Z.log2_null in L; lia).
      subst b. change (Z.max 0 (- 0)) with 0. change (Z.max 0 0) with 0.
      rewrite Z.pow_0_r, !Z.mul_1_r.
      assert (Hr : round_half_even a 1 = a).
      { unfold round_half_even. rewrite Z.mod_1_r, Z.div_1_r. reflexivity. }
      rewrite Hr.
      destruct (Z.leb_spec (2 ^ 1024) a) as [Hov|_]; [lia|].
      eexists; split; [reflexivity|].
      unfold math_ceil, ceiling; cbn [mantissa exponent].
      change (0 <=? 0) with true. cbv iota.
      rewrite Z.pow_0_r, Z.mul_1_l, Z.mul_1_r, Z.div_1_r. lia.
    + rewrite (Z.max_l 0 (e1 - 52)), (Z.max_r 0 (- (e1 - 52))) by lia.
      rewrite Z.pow_0_r, !Z.mul_1_r.
      set (P := 2 ^ (- (e1 - 52))).
      assert (HP : 0 < P) by (apply Z.pow_pos_nonneg; lia).
      assert (HbP : b < 2 * P).
      { unfold P. change 2 with (2 ^ 1) at 1.
        rewrite <- Z.pow_add_r by lia.
        apply Z.lt_le_trans with (2 ^ Z.succ (Z.log2 b)); [apply Hb2|].
        apply Z.pow_le_mono_r; lia. }
      pose proof (ceiling_spec a b ltac:(lia)) as Hk.
      set (k := ceiling a b) in *.
      pose proof (round_half_even_le (a * P) b (k * P) ltac:(lia) ltac:(nia))
        as Hle.
      pose proof (round_half_even_gt (a * P) b ((k - 1) * P) ltac:(lia)
                    ltac:(nia)) as Hgt.
      set (m := round_half_even (a * P) b) in *.
      assert (Hka : k <= a) by nia.
      assert (H1024 : 2 ^ 53 * P < 2 ^ 1024 * P)
        by (apply Z.mul_lt_mono_pos_r; [exact HP | reflexivity]).
      destruct (Z.leb_spec (2 ^ 1024 * P) m) as [Hov|_]; [nia|].
      eexists; split; [reflexivity|].
      unfold math_ceil; cbn [mantissa exponent].
      destruct (Z.leb_spec 0 (e1 - 52)) as [?|_]; [lia|].
      rewrite Z.mul_1_l. fold P.
      change (- (- m / P)) with (ceiling m P).
      apply ceiling_unique; lia.
Qed.

(** A dividend below [2 ^ 1023] in magnitude never overflows a float. *)
Lemma true_divide_no_overflow (a b : Z) :
  Z.abs a < 2 ^ 1023 -> b <> 0 -> exists q, int_true_divide a b = Ok q.
Proof.
  intros Ha Hb. unfold int_true_divide.
  destruct (Z.eqb_spec b 0) as [?|_]; [contradiction|].
  destruct (Z.eqb_spec a 0) as [->|Ha0]; [eexists; reflexivity|].
  set (n := Z.abs a) in *. set (d := Z.abs b).
  assert (Hn : 0 < n) by (unfold n; lia).
  assert (Hd : 1 <= d) by (unfold d; lia).
  pose proof (quotient_exponent_le n d) as He1.
  assert (Hln : Z.log2 n < 1023) by (apply Z.log2_lt_pow2; lia).
  pose proof (Z.log2_nonneg d) as Hld.
  set (e := Z.max (quotient_exponent n d - 52) (-1074)).
  assert (He : e <= 970) by (unfold e; lia).
  destruct (Z.leb_spec 0 e) as [Hpos|Hneg].
  - rewrite (Z.max_r 0 e), (Z.max_l 0 (- e)) by lia.
    rewrite Z.pow_0_r, !Z.mul_1_r.
    assert (HD : 0 < 2 ^ e) by (apply Z.pow_pos_nonneg; lia).
    assert (Hsplit : 2 ^ (1023 - e) * 2 ^ e = 2 ^ 1023)
      by (rewrite <- Z.pow_add_r by lia; f_equal; lia).
    assert (HN : 0 < 2 ^ (1023 - e)) by (apply Z.pow_pos_nonneg; lia).
    pose proof (round_half_even_le n (d * 2 ^ e) (2 ^ (1023 - e))
                  ltac:(nia) ltac:(nia)) as Hle.
    set (m := round_half_even n (d * 2 ^ e)) in *.
    assert (H1024 : 2 ^ 1023 < 2 ^ 1024) by reflexivity.
    destruct (Z.leb_spec (2 ^ 1024) (m * 2 ^ e)) as [Hov|_]; [nia|].
    eexists; reflexivity.
  - rewrite (Z.max_l 0 e), (Z.max_r 0 (- e)) by lia.
    rewrite Z.pow_0_r, !Z.mul_1_r.
    set (P := 2 ^ (- e)).
    assert (HP : 0 < P) by (apply Z.pow_pos_nonneg; lia).
    pose proof (round_half_even_le (n * P) d (2 ^ 1023 * P)
                  ltac:(lia) ltac:(nia)) as Hle.
    set (m := round_half_even (n * P) d) in *.
    assert (H1024 : 2 ^ 1023 * P < 2 ^ 1024 * P)
      by (apply Z.mul_lt_mono_pos_r; [exact HP | reflexivity]).
    destruct (Z.leb_spec (2 ^ 1024 * P) m) as [Hov|_]; [lia|].
    eexists; reflexivity.
Qed.

(** The model's quotient is the quotient [SpecFloat] specifies, on the
    sample operands. *)
Example true_divide_agrees_with_ieee :
  forallb (fun a => forallb (agrees_with_ieee a) sample_divisors)
    sample_dividends = true.
Proof. vm_compute. reflexivity. Qed.

(** ** The constructor *)

(** With a length below [2 ^ 1023] in magnitude and a group size that is not
    0, the constructor returns. *)
Lemma init_returns (name : string) (length ncols : Z) :
  Z.abs length < 2 ^ 1023 -> ncols <> 0 ->
  exists self, TableRow.init name length ncols = Ok self.
Proof.
  intros Hlen Hn.
  destruct (true_divide_no_overflow length ncols Hlen Hn) as (q & Hq).
  unfold TableRow.init. rewrite Hq. cbn [bind]. eexists; reflexivity.
Qed.

(** Where the float quotient is exact, the constructor returns a helper whose
    [nrows] is the ceiling. *)
Lemma init_exact_rows (name : string) (length ncols : Z) :
  0 <= length < 2 ^ 53 -> 1 <= ncols < 2 ^ 1075 ->
  exists self,
    TableRow.init name length ncols = Ok self /\
    TableRow.nrows self = ceiling length ncols.
Proof.
  intros Hlen Hn.
  destruct (true_divide_ceil length ncols Hlen Hn) as (q & Hq & Hceil).
  unfold TableRow.init. rewrite Hq. cbn [bind].
  eexists; split; [reflexivity | exact Hceil].
Qed.

(** C6, as the code has it.  For a length between 0 and [2 ^ 1023], the
    constructor raises exactly when the group size is 0, and what it raises is
    [ZeroDivisionError]; with any other group size, a negative one too, it
    returns a helper. *)
Theorem init_fails_only_on_zero (name : string) (length ncols : Z) :
  0 <= length < 2 ^ 1023 ->
  (ncols = 0 -> TableRow.init name length ncols = Raise ZeroDivisionError) /\
  (ncols <> 0 -> exists self, TableRow.init name length ncols = Ok self).
Proof.
  intros Hlen. split.
  - intros ->. reflexivity.
  - intros Hn. apply init_returns; [lia | exact Hn].
Qed.

Lemma init_fails_only_on_zero_witness :
  0 <= 5 < 2 ^ 1023 /\
  TableRow.init "x" 5 0 = Raise ZeroDivisionError /\
  exists self, TableRow.init "x" 5 3 = Ok self.
Proof.
  assert (H : 0 <= 5 < 2 ^ 1023) by (split; [lia | reflexivity]).
  split; [exact H|]. split.
  - exact (proj1 (init_fails_only_on_zero "x" 5 0 H) eq_refl).
  - apply (proj2 (init_fails_only_on_zero "x" 5 3 H)). discriminate.
Defined.

(** C6 as stated fails: a negative group size is accepted (the claim has the
    constructor refuse every group size below 1), a zero one raises
    [ZeroDivisionError], and a group size of 1 is refused with
    [OverflowError] when the length is beyond the floats. *)
Lemma init_accepts_negative_group_size :
  (exists self, TableRow.init "x" 5 (-2) = Ok self /\
                TableRow.ncols self = -2 /\ TableRow.nrows self = -2) /\
  TableRow.init "x" 5 0 = Raise ZeroDivisionError /\
  TableRow.init "x" (2 ^ 1024) 1 = Raise OverflowError.
Proof.
  split; [|split]; vm_compute; [|reflexivity|reflexivity].
  eexists; repeat split.
Qed.

(** C4, as the code has it.  For [0 <= length < 2 ^ 53] and
    [1 <= ncols < 2 ^ 1075], the constructor returns a helper whose [nrows] is
    the ceiling of [length / ncols]; after [length] steps [index = length],
    [rindex = 1] and [rindex0 = 0]; and after [k] of them, [1 <= k], [last] is
    true exactly when [k = length]. *)
Theorem fresh_helper_counts (name : string) (length ncols : Z)
    (items : list object) :
  0 <= length < 2 ^ 53 ->
  1 <= ncols < 2 ^ 1075 ->
  Z.of_nat (List.length items) = length ->
  exists self,
    TableRow.init name length ncols = Ok self /\
    TableRow.nrows self = ceiling length ncols /\
    (exists self',
       TableRow.steps self items = Ok self' /\
       TableRow.index self' = length /\
       TableRow.rindex self' = 1 /\
       TableRow.rindex0 self' = 0) /\
    forall k : nat,
      (1 <= k <= List.length items)%nat ->
      exists self',
        TableRow.steps self (firstn k items) = Ok self' /\
        (TableRow.last self' = true <-> k = List.length items).
Proof.
  intros Hlen Hn Hitems.
  destruct (init_exact_rows name length ncols Hlen Hn)
    as (self & Hinit & Hrows).
  exists self.
  destruct (init_fields _ _ _ _ Hinit)
    as (_ & Hl & Hc & _ & Hi & Hi0 & Hr & Hr0 & _).
  split; [exact Hinit|]. split; [exact Hrows|]. split.
  - destruct (steps_counters items self)
      as (self' & Hs & _ & _ & _ & _ & H5 & _ & H7 & H8); [lia|].
    exists self'. repeat split; [exact Hs|lia..].
  - intros k Hk.
    assert (Hne : firstn k items <> []).
    { intros E. apply (f_equal (@List.length object)) in E.
      rewrite length_firstn in E. cbn in E. lia. }
    destruct (exists_last Hne) as (l & x & El). rewrite El.
    destruct (steps_last l x self) as (before & _ & Hs & _ & _ & _ & Hb);
      [lia|].
    exists (stepped before x). split; [exact Hs|].
    assert (Hl' : List.length l = (k - 1)%nat).
    { apply (f_equal (@List.length object)) in El.
      rewrite length_firstn, length_app in El. cbn in El. lia. }
    unfold stepped; cbn [TableRow.last]. rewrite Z.eqb_eq. lia.
Qed.

Lemma fresh_helper_counts_witness :
  exists self self',
    TableRow.init "x" 5 3 = Ok self /\
    TableRow.nrows self = ceiling 5 3 /\
    TableRow.steps self [PyInt 1; PyInt 2; PyInt 3; PyInt 4; PyInt 5]
      = Ok self' /\
    TableRow.index self' = 5 /\ TableRow.rindex self' = 1 /\
    TableRow.rindex0 self' = 0.
Proof.
  destruct (fresh_helper_counts "x" 5 3
              [PyInt 1; PyInt 2; PyInt 3; PyInt 4; PyInt 5])
    as (self & Hinit & Hrows & (self' & Hs & Hi & Hr & Hr0) & _);
    [split; [lia | reflexivity] | split; [lia | reflexivity] | reflexivity |].
  exists self, self'. repeat split; assumption.
Defined.

(** C4 as stated fails twice over.  After the last step [rindex] is 1, not 0:
    it counts down to 1 and [rindex0] to 0.  And [nrows] goes through a float:
    for a length of [2 ^ 53 + 1] in groups of 1 it is [2 ^ 53], one short of
    the ceiling. *)
Lemma rindex_ends_at_one :
  (exists self self',
     TableRow.init "x" 1 1 = Ok self /\
     TableRow.steps self [PyInt 7] = Ok self' /\
     TableRow.index self' = 1 /\
     TableRow.rindex self' = 1 /\ TableRow.rindex self' <> 0) /\
  (exists self,
     TableRow.init "x" (2 ^ 53 + 1) 1 = Ok self /\
     TableRow.nrows self = 2 ^ 53 /\
     TableRow.nrows self <> ceiling (2 ^ 53 + 1) 1).
Proof.
  split.
  - do 2 eexists. vm_compute. repeat split. discriminate.
  - eexists. vm_compute. repeat split. discriminate.
Qed.

(** ** Lookups *)

(** C9, as the code has it.  On the helper, each of the eleven keys returns
    its field and any other key raises [KeyError].  On the drop, the fixed key
    [tablerowloop] returns the helper, the loop variable's name returns the
    current item when that name is not the fixed key, and any other key raises
    [KeyError]. *)
Theorem lookup_by_key (self : TableRow.t) (drop : TableRowDrop.t) :
  (TableRow.getitem self "length" = Ok (PyInt (TableRow.length self)) /\
   TableRow.getitem self "index" = Ok (PyInt (TableRow.index self)) /\
   TableRow.getitem self "index0" = Ok (PyInt (TableRow.index0 self)) /\
   TableRow.getitem self "rindex" = Ok (PyInt (TableRow.rindex self)) /\
   TableRow.getitem self "rindex0" = Ok (PyInt (TableRow.rindex0 self)) /\
   TableRow.getitem self "first" = Ok (PyBool (TableRow.first self)) /\
   TableRow.getitem self "last" = Ok (PyBool (TableRow.last self)) /\
   TableRow.getitem self "col" = Ok (PyInt (TableRow.col self)) /\
   TableRow.getitem self "col0" = Ok (PyInt (TableRow.col0 self)) /\
   TableRow.getitem self "col_first" = Ok (PyBool (TableRow.col_first self)) /\
   TableRow.getitem self "col_last" = Ok (PyBool (TableRow.col_last self))) /\
  (forall key, ~ In key TableRow.keys ->
               TableRow.getitem self key = Raise (KeyError key)) /\
  TableRowDrop.getitem drop "tablerowloop" =
    Ok (TableRowDrop.Helper (TableRowDrop.tablerow drop)) /\
  (TableRowDrop.name drop <> "tablerowloop"%string ->
   TableRowDrop.getitem drop (TableRowDrop.name drop) =
     Ok (TableRowDrop.Item (TableRow.item (TableRowDrop.tablerow drop)))) /\
  (forall key, key <> "tablerowloop"%string -> key <> TableRowDrop.name drop ->
               TableRowDrop.getitem drop key = Raise (KeyError key)).
Proof.
  split; [repeat split|]. split; [|split; [|split]].
  - intros key Hkey. unfold TableRow.getitem.
    destruct (existsb (String.eqb key) TableRow.keys) eqn:E; [|reflexivity].
    apply existsb_exists in E. destruct E as (k & Hin & Hk).
    apply String.eqb_eq in Hk. subst k. contradiction.
  - reflexivity.
  - intros Hname. unfold TableRowDrop.getitem.
    destruct (String.eqb_spec (TableRowDrop.name drop) "tablerowloop");
      [contradiction|].
    now rewrite String.eqb_refl.
  - intros key H1 H2. unfold TableRowDrop.getitem.
    destruct (String.eqb_spec key "tablerowloop"); [contradiction|].
    destruct (String.eqb_spec key (TableRowDrop.name drop)); [contradiction|].
    reflexivity.
Qed.

(** C9 as stated fails when the loop variable is itself called
    [tablerowloop]: the fixed key is tested first, so looking up the loop
    variable's name returns the helper and not the current item. *)
Lemma loop_variable_named_tablerowloop :
  exists drop0 drop,
    TableRowDrop.init "tablerowloop" 1 1 = Ok drop0 /\
    TableRowDrop.step drop0 (PyInt 5) = Ok drop /\
    TableRow.item (TableRowDrop.tablerow drop) = PyInt 5 /\
    TableRowDrop.getitem drop (TableRowDrop.name drop) =
      Ok (TableRowDrop.Helper (TableRowDrop.tablerow drop)) /\
    TableRowDrop.getitem drop (TableRowDrop.name drop) <>
      Ok (TableRowDrop.Item (TableRow.item (TableRowDrop.tablerow drop))).
Proof.
  do 2 eexists. vm_compute. repeat split. discriminate.
Qed.

(** ** The buffered emission of [step_write] *)

(** C3.  On a drop whose group size is positive, [step_write(item, buffer)]
    writes the last pending closing markup if there is one and takes it off
    the stack; steps the helper; writes the opening row tag with the row
    number, the bytes of [row_tag row], exactly when [col = 1] and
    [row <= nrows]; writes the opening cell tag with the column number, the
    bytes of [cell_tag col]; and pushes [</td></tr>] if [col = ncols] or
    [index = length], [</td>] otherwise. *)
Theorem step_write_protocol (self : TableRowDrop.t) (item : object)
    (buffer : TextIO) :
  1 <= TableRow.ncols (TableRowDrop.tablerow self) ->
  exists tablerow,
    TableRow.step (TableRowDrop.tablerow self) item = Ok tablerow /\
    let pending := TableRowDrop._exit self in
    let flushed :=
      match pending with
      | [] => EmptyString
      | s :: _ => List.last pending s
      end in
    let opened_row :=
      if (TableRow.col tablerow =? 1)
         && (TableRow.row tablerow <=? TableRow.nrows tablerow)
      then row_tag (TableRow.row tablerow)
      else EmptyString in
    let closing :=
      if (TableRow.col tablerow =? TableRow.ncols tablerow)
         || (TableRow.index tablerow =? TableRow.length tablerow)
      then "</td></tr>"%string
      else "</td>"%string in
    TableRowDrop.step_write self item buffer =
      (Ok {| TableRowDrop.tablerow := tablerow;
             TableRowDrop.name := TableRowDrop.name self;
             TableRowDrop._exit := removelast pending ++ [closing] |},
       (buffer ++ flushed ++ opened_row
          ++ cell_tag (TableRow.col tablerow))%string).
Proof.
  intros Hn. exists (stepped (TableRowDrop.tablerow self) item).
  assert (Hstep := step_stepped (TableRowDrop.tablerow self) item
                     ltac:(lia)).
  split; [exact Hstep|]. cbv zeta.
  unfold TableRowDrop.step_write, TableRowDrop.empty_exit_buffer, list_pop.
  destruct self as [tr nm pending]; cbn [TableRowDrop.tablerow
    TableRowDrop.name TableRowDrop._exit] in *.
  destruct pending as [|s pending'].
  - unfold io_bind, ret, lift, write, TableRowDrop.step;
      cbn [TableRowDrop.tablerow TableRowDrop.name TableRowDrop._exit].
    rewrite Hstep; cbn [bind TableRowDrop.tablerow TableRowDrop.name
                          TableRowDrop._exit removelast].
    destruct (_ && _); cbn [String.append];
      rewrite ?append_assoc; reflexivity.
  - unfold io_bind, ret, lift, write, TableRowDrop.step;
      cbn [TableRowDrop.tablerow TableRowDrop.name TableRowDrop._exit].
    rewrite Hstep; cbn [bind TableRowDrop.tablerow TableRowDrop.name
                          TableRowDrop._exit].
    destruct (_ && _); cbn [String.append];
      rewrite ?append_assoc; reflexivity.
Qed.

Lemma step_write_protocol_witness :
  exists drop0 drop,
    TableRowDrop.init "x" 2 2 = Ok drop0 /\
    TableRowDrop.step_write drop0 (PyInt 7) EmptyString =
      (Ok drop,
       ("<tr class=" ++ quotation_mark ++ "row1" ++ quotation_mark
          ++ "><td class=" ++ quotation_mark ++ "col1" ++ quotation_mark
          ++ ">")%string) /\
    TableRowDrop._exit drop = ["</td>"%string].
Proof.
  assert (Hinit : exists drop0, TableRowDrop.init "x" 2 2 = Ok drop0)
    by (vm_compute; eexists; reflexivity).
  destruct Hinit as (drop0 & Hinit). exists drop0.
  assert (Hn : 1 <= TableRow.ncols (TableRowDrop.tablerow drop0))
    by (revert Hinit; vm_compute; intros [= <-]; discriminate).
  destruct (step_write_protocol drop0 (PyInt 7) EmptyString Hn)
    as (tablerow & Hstep & Hwrite).
  revert Hinit Hstep Hwrite. vm_compute. intros [= <-]. vm_compute.
  intros [= <-] Hwrite. eexists. split; [reflexivity|].
  split; [exact Hwrite | reflexivity].
Defined.

(** ** The interpreter path *)

Lemma drop_step_stepped (drop : TableRowDrop.t) (item : object) :
  TableRow.ncols (TableRowDrop.tablerow drop) <> 0 ->
  TableRowDrop.step drop item = Ok (drop_stepped drop item).
Proof.
  intros Hn. unfold TableRowDrop.step. now rewrite step_stepped.
Qed.

Lemma drop_after_ncols (row : list object) (drop : TableRowDrop.t) :
  TableRow.ncols (TableRowDrop.tablerow (drop_after drop row)) =
  TableRow.ncols (TableRowDrop.tablerow drop).
Proof.
  revert drop. induction row as [|x row IH]; intros drop; [reflexivity|].
  cbn [drop_after fold_left]. fold (drop_after (drop_stepped drop x) row).
  now rewrite IH.
Qed.

(** The inner loop over a row, for a block that returns normally. *)
Lemma render_cells_text {Context : Type} (self : TablerowNode.t Context)
    (context : Context) (row : list object) :
  (forall ctx, fst (TablerowNode.block self ctx) = Ok tt) ->
  forall (j : Z) (drop : TableRowDrop.t) (buffer : TextIO),
    TableRow.ncols (TableRowDrop.tablerow drop) <> 0 ->
    TablerowNode.render_cells self context row j drop buffer =
      (Ok (drop_after drop row),
       (buffer ++ cells_text self context row j drop)%string).
Proof.
  intros Hblock. induction row as [|x row IH]; intros j drop buffer Hn.
  - cbn. now rewrite append_nil_r.
  - cbn [TablerowNode.render_cells cells_text drop_after fold_left].
    unfold io_bind at 1, lift. rewrite (drop_step_stepped _ _ Hn).
    unfold io_bind at 1, write. unfold io_bind at 1, BlockNode.render.
    rewrite Hblock. unfold io_bind at 1.
    rewrite IH by exact Hn.
    rewrite !append_assoc. reflexivity.
Qed.

(** C10.  With no [cols] expression and an empty sequence, the interpreter
    path returns normally having written the opening tag of row 1, the tag
    [tr] with the class [row1] between double quotes, and then the closing
    row tag, nothing between them, and the drop is as constructed: [index] is
    0, no step was taken. *)
Theorem empty_sequence_writes_one_row {Context : Type}
    (self : TablerowNode.t Context) (context : Context) (buffer : TextIO) :
  LoopExpression.cols (TablerowNode.expression self) = None ->
  LoopExpression.evaluate (TablerowNode.expression self) context = Ok [] ->
  exists drop,
    TableRowDrop.init (LoopExpression.name (TablerowNode.expression self)) 0 1
      = Ok drop /\
    TableRow.index (TableRowDrop.tablerow drop) = 0 /\
    TablerowNode.render_to_output self context buffer =
      (Ok drop,
       (buffer ++ "<tr class=" ++ quotation_mark ++ "row1" ++ quotation_mark
          ++ "></tr>")%string).
Proof.
  intros Hcols Hitems. eexists. split; [reflexivity|]. split; [reflexivity|].
  unfold TablerowNode.render_to_output. rewrite Hcols, Hitems.
  cbn. rewrite !append_assoc. reflexivity.
Qed.

Lemma empty_sequence_writes_one_row_witness :
  exists drop,
    TableRow.index (TableRowDrop.tablerow drop) = 0 /\
    TablerowNode.render_to_output (sample_node None []) tt EmptyString =
      (Ok drop,
       ("<tr class=" ++ quotation_mark ++ "row1" ++ quotation_mark
          ++ "></tr>")%string).
Proof.
  destruct (empty_sequence_writes_one_row (sample_node None []) tt
              EmptyString eq_refl eq_refl) as (drop & _ & Hindex & Hout).
  exists drop. split; [exact Hindex | exact Hout].
Defined.

(** C7, as the code has it.  When the [cols] expression evaluates to a value
    that is no [int], the interpreter path raises [AssertionError], and the
    buffer is as it was: nothing has been written. *)
Theorem non_integer_cols_fails_assertion {Context : Type}
    (self : TablerowNode.t Context) (context : Context) (buffer : TextIO)
    (cols_expression : Context -> result object) (items : list object)
    (cols : object) :
  LoopExpression.cols (TablerowNode.expression self) = Some cols_expression ->
  LoopExpression.evaluate (TablerowNode.expression self) context = Ok items ->
  cols_expression context = Ok cols ->
  isinstance_int cols = false ->
  TablerowNode.render_to_output self context buffer =
    (Raise AssertionError, buffer).
Proof.
  intros Hcols Hitems Hvalue Hint.
  unfold TablerowNode.render_to_output.
  rewrite Hcols, Hitems. unfold io_bind at 1, lift.
  unfold io_bind at 1. unfold io_bind at 1. rewrite Hvalue.
  unfold io_bind at 1. rewrite Hint. reflexivity.
Qed.

Lemma non_integer_cols_fails_assertion_witness :
  TablerowNode.render_to_output
    (sample_node (Some (PyStr "3")) [PyInt 1; PyInt 2]) tt EmptyString =
    (Raise AssertionError, EmptyString).
Proof.
  exact (non_integer_cols_fails_assertion
           (sample_node (Some (PyStr "3")) [PyInt 1; PyInt 2]) tt EmptyString
           (fun _ => Ok (PyStr "3")) [PyInt 1; PyInt 2] (PyStr "3")
           eq_refl eq_refl eq_refl eq_refl).
Defined.

(** C7 as stated fails: with a [cols] expression that evaluates to the string
    [3], what the interpreter path raises is [AssertionError], which is no
    [LiquidTypeError]. *)
Lemma string_cols_is_no_type_error :
  fst (TablerowNode.render_to_output
         (sample_node (Some (PyStr "3")) [PyInt 1; PyInt 2]) tt EmptyString)
    = Raise AssertionError /\
  fst (TablerowNode.render_to_output
         (sample_node (Some (PyStr "3")) [PyInt 1; PyInt 2]) tt EmptyString)
    <> Raise LiquidTypeError.
Proof.
  split; [reflexivity | discriminate].
Qed.

(** What the branch without a [cols] expression writes, for a sequence no
    longer than [sys.maxsize] and a block that returns normally: one row for
    the whole sequence, the opening tag of row 1, one cell per item with the
    cells numbered from 1, and one closing row tag.  The group size 1 goes to
    the helper only. *)
Lemma no_cols_writes_one_row {Context : Type}
    (self : TablerowNode.t Context) (context : Context) (buffer : TextIO)
    (items : list object) :
  LoopExpression.cols (TablerowNode.expression self) = None ->
  LoopExpression.evaluate (TablerowNode.expression self) context = Ok items ->
  Z.of_nat (List.length items) <= sys_maxsize ->
  (forall ctx, fst (TablerowNode.block self ctx) = Ok tt) ->
  exists drop,
    TableRowDrop.init (LoopExpression.name (TablerowNode.expression self))
      (Z.of_nat (List.length items)) 1 = Ok drop /\
    TableRow.ncols (TableRowDrop.tablerow drop) = 1 /\
    TablerowNode.render_to_output self context buffer =
      (Ok (drop_after drop items),
       (buffer ++ row_tag 1 ++ cells_text self context items 0 drop
          ++ "</tr>")%string).
Proof.
  intros Hcols Hitems Hlen Hblock.
  destruct (init_returns
              (LoopExpression.name (TablerowNode.expression self))
              (Z.of_nat (List.length items)) 1) as (tablerow & Htablerow).
  { rewrite Z.abs_eq by lia.
    apply Z.le_lt_trans with sys_maxsize; [exact Hlen | reflexivity]. }
  { discriminate. }
  destruct (init_fields _ _ _ _ Htablerow) as (_ & _ & Hncols & _).
  exists (TableRowDrop.mk tablerow
            (LoopExpression.name (TablerowNode.expression self)) []).
  split; [unfold TableRowDrop.init; now rewrite Htablerow|].
  split; [exact Hncols|].
  unfold TablerowNode.render_to_output. rewrite Hcols, Hitems.
  unfold io_bind at 1, lift. unfold io_bind at 1, ret.
  unfold io_bind at 1, TableRowDrop.init. rewrite Htablerow. cbn [bind].
  cbn [TablerowNode.render_rows]. unfold io_bind at 1, write.
  unfold io_bind at 1.
  rewrite render_cells_text by (try exact Hblock; cbn; lia).
  unfold io_bind at 1. cbn [Z.add ret].
  rewrite !append_assoc. reflexivity.
Qed.


(** ** The buffered loop and the interpreter's loops *)

Lemma step_write_stepped (drop : TableRowDrop.t) (item : object)
    (buffer : TextIO) :
  TableRow.ncols (TableRowDrop.tablerow drop) <> 0 ->
  TableRowDrop.step_write drop item buffer =
    (Ok {| TableRowDrop.tablerow := stepped (TableRowDrop.tablerow drop) item;
           TableRowDrop.name := TableRowDrop.name drop;
           TableRowDrop._exit :=
             removelast (TableRowDrop._exit drop)
               ++ [closing (stepped (TableRowDrop.tablerow drop) item)] |},
     (buffer
        ++ match TableRowDrop._exit drop with
           | [] => EmptyString
           | s :: _ => List.last (TableRowDrop._exit drop) s
           end
        ++ opening (stepped (TableRowDrop.tablerow drop) item))%string).
Proof.
  intros Hn.
  assert (Hstep := step_stepped (TableRowDrop.tablerow drop) item Hn).
  unfold TableRowDrop.step_write, TableRowDrop.empty_exit_buffer, list_pop,
    opening, closing.
  destruct drop as [tr nm pending]; cbn [TableRowDrop.tablerow
    TableRowDrop.name TableRowDrop._exit] in *.
  destruct pending as [|s pending'];
    unfold io_bind, ret, lift, write, TableRowDrop.step;
    cbn [TableRowDrop.tablerow TableRowDrop.name TableRowDrop._exit];
    rewrite Hstep;
    cbn [bind TableRowDrop.tablerow TableRowDrop.name TableRowDrop._exit
           removelast];
    destruct (_ && _); cbn [String.append];
    rewrite ?append_assoc; reflexivity.
Qed.

(** How a sequence of writes runs. *)
Lemma bind_ret {A B : Type} (a : A) (k : A -> IO B) (buffer : TextIO) :
  (x <~ ret a ;; k x) buffer = k a buffer.
Proof. reflexivity. Qed.

Lemma bind_write {B : Type} (s : string) (k : unit -> IO B)
    (buffer : TextIO) :
  (x <~ write s ;; k x) buffer = k tt (buffer ++ s)%string.
Proof. reflexivity. Qed.

Lemma bind_lift {A B : Type} (r : result A) (k : A -> IO B)
    (buffer : TextIO) :
  (x <~ lift r ;; k x) buffer =
  match r with
  | Ok a => k a buffer
  | Raise e => (Raise e, buffer)
  end.
Proof. destruct r; reflexivity. Qed.

Lemma bind_render {Context B : Type} (block : BlockNode.t Context)
    (ctx : Scope Context) (k : unit -> IO B) (buffer : TextIO) :
  (x <~ BlockNode.render block ctx ;; k x) buffer =
  match fst (block ctx) with
  | Ok u => k u (buffer ++ snd (block ctx))%string
  | Raise e => (Raise e, (buffer ++ snd (block ctx))%string)
  end.
Proof. reflexivity. Qed.

Lemma bind_of {A B : Type} (c : IO A) (k : A -> IO B) (buffer : TextIO)
    (r : result A) (buffer' : TextIO) :
  c buffer = (r, buffer') ->
  (x <~ c ;; k x) buffer =
  match r with
  | Ok a => k a buffer'
  | Raise e => (Raise e, buffer')
  end.
Proof. intros H. unfold io_bind. now rewrite H. Qed.

(** The buffer only delays the closing markup: from a drop whose one pending
    entry is the closing markup of its element, the rest of the buffered loop
    writes what the unbuffered loop writes after that element's block. *)
Lemma loop_tail_eager {Context : Type} (self : TablerowNode.t Context)
    (context : Context) (remaining : list object) :
  forall (tablerow : TableRow.t) (name : string) (buffer : TextIO),
    TableRow.ncols tablerow <> 0 ->
    observe (loop_tail self context remaining
               (TableRowDrop.mk tablerow name [closing tablerow]) buffer) =
    observe ((_ <~ BlockNode.render (TablerowNode.block self)
                     (extend context (TableRowDrop.mk tablerow name [])) ;;
              _ <~ write (closing tablerow) ;;
              eager_loop self context remaining
                (TableRowDrop.mk tablerow name [])) buffer).
Proof.
  induction remaining as [|item remaining IH]; intros tablerow name buffer Hn;
    cbn [loop_tail eager_loop]; rewrite !bind_render;
    unfold extend; cbn [TableRowDrop.tablerow TableRowDrop.name];
    destruct (TablerowNode.block self _) as [[[]|e] text]; cbn [fst snd];
    try reflexivity.
  rewrite (bind_of _ _ _ _ _
             (step_write_stepped
                (TableRowDrop.mk tablerow name [closing tablerow]) item _ Hn)).
  cbn [TableRowDrop.tablerow TableRowDrop.name TableRowDrop._exit
         removelast List.last app].
  rewrite IH by exact Hn.
  rewrite bind_write, bind_lift.
  rewrite (drop_step_stepped (TableRowDrop.mk tablerow name []) item Hn).
  unfold drop_stepped; cbn [TableRowDrop.tablerow TableRowDrop.name
                              TableRowDrop._exit].
  rewrite bind_write, !append_assoc. reflexivity.
Qed.

Lemma buffered_loop_eager {Context : Type} (self : TablerowNode.t Context)
    (context : Context) (items : list object) (tablerow : TableRow.t)
    (name : string) (buffer : TextIO) :
  TableRow.ncols tablerow <> 0 ->
  observe (buffered_loop self context items
             (TableRowDrop.mk tablerow name []) buffer) =
  observe (eager_loop self context items
             (TableRowDrop.mk tablerow name []) buffer).
Proof.
  intros Hn. destruct items as [|item remaining]; [reflexivity|].
  cbn [buffered_loop eager_loop].
  rewrite (bind_of _ _ _ _ _
             (step_write_stepped (TableRowDrop.mk tablerow name []) item _
                Hn)).
  cbn [TableRowDrop.tablerow TableRowDrop.name TableRowDrop._exit
         removelast app].
  rewrite loop_tail_eager by exact Hn.
  rewrite bind_lift,
    (drop_step_stepped (TableRowDrop.mk tablerow name []) item Hn).
  unfold drop_stepped; cbn [TableRowDrop.tablerow TableRowDrop.name
                              TableRowDrop._exit].
  rewrite bind_write. cbn [String.append]. reflexivity.
Qed.

(** ** Positions *)

Lemma ceiling_succ (k c : Z) : 1 <= c -> ceiling (k + 1) c = k / c + 1.
Proof.
  intros Hc. apply ceiling_unique; [lia|].
  pose proof (Z.div_mod k c ltac:(lia)) as E.
  pose proof (Z.mod_pos_bound k c ltac:(lia)) as B.
  nia.
Qed.

Lemma ceiling_zero_mod (k c : Z) :
  1 <= c -> k mod c = 0 -> ceiling k c = k / c.
Proof.
  intros Hc Hm. apply ceiling_unique; [lia|].
  pose proof (Z.div_mod k c ltac:(lia)) as E. nia.
Qed.

Lemma ceiling_pos_mod (k c : Z) :
  1 <= c -> k mod c <> 0 -> ceiling k c = k / c + 1.
Proof.
  intros Hc Hm. apply ceiling_unique; [lia|].
  pose proof (Z.div_mod k c ltac:(lia)) as E.
  pose proof (Z.mod_pos_bound k c ltac:(lia)) as B.
  nia.
Qed.

(** A step from position [k]: the column is [k mod c + 1] and the row
    [k / c + 1]. *)
Lemma positioned_step (c L R k : Z) (tablerow : TableRow.t) (item : object) :
  1 <= c ->
  positioned c L R k tablerow ->
  positioned c L R (k + 1) (stepped tablerow item) /\
  TableRow.col (stepped tablerow item) = k mod c + 1 /\
  TableRow.row (stepped tablerow item) = k / c + 1.
Proof.
  intros Hc (Hn & Hl & Hr & Hi0 & Hi & Hrow).
  assert (Hcol : TableRow.col (stepped tablerow item) = k mod c + 1)
    by (unfold stepped; cbn; rewrite Hn, Hi0; f_equal; f_equal; lia).
  assert (Hrow' : TableRow.row (stepped tablerow item) = k / c + 1).
  { unfold stepped; cbn [TableRow.row]. rewrite Hn, Hi0, Hrow.
    replace (k - 1 + 1) with k by lia.
    destruct (Z.eqb_spec (k mod c + 1) 1) as [E|E].
    - rewrite ceiling_zero_mod by lia. reflexivity.
    - rewrite ceiling_pos_mod by lia. reflexivity. }
  split; [|split; assumption].
  unfold positioned. rewrite Hrow', ceiling_succ by exact Hc.
  unfold stepped; cbn. repeat split; lia.
Qed.

Lemma positioned_fresh (name : string) (L c : Z) (tablerow : TableRow.t) :
  TableRow.init name L c = Ok tablerow ->
  positioned c L (TableRow.nrows tablerow) 0 tablerow.
Proof.
  intros Hinit.
  destruct (init_fields _ _ _ _ Hinit)
    as (_ & Hl & Hn & _ & Hi & Hi0 & _ & _ & Hrow & _).
  unfold positioned. repeat split; assumption.
Qed.

(** ** The unbuffered loop is the interpreter's pair of loops *)

Lemma step_result (tablerow tablerow' : TableRow.t) (item : object) :
  TableRow.step tablerow item = Ok tablerow' ->
  tablerow' = stepped tablerow item.
Proof.
  destruct (Z.eq_dec (TableRow.ncols tablerow) 0) as [E|E].
  - rewrite (step_zero_ncols _ _ E). discriminate.
  - rewrite (step_stepped _ _ E). now intros [= <-].
Qed.

Lemma drop_step_result (drop drop' : TableRowDrop.t) (item : object) :
  TableRowDrop.step drop item = Ok drop' -> drop' = drop_stepped drop item.
Proof.
  unfold TableRowDrop.step, drop_stepped.
  destruct (TableRow.step (TableRowDrop.tablerow drop) item) as [t'|e] eqn:E;
    cbn [bind]; [|discriminate].
  intros [= <-]. now rewrite (step_result _ _ _ E).
Qed.

(** When a loop returns, the drop it returns has taken one step per item. *)
Lemma eager_loop_returns {Context : Type} (self : TablerowNode.t Context)
    (context : Context) (items : list object) :
  forall (drop drop' : TableRowDrop.t) (buffer buffer' : TextIO),
    eager_loop self context items drop buffer = (Ok drop', buffer') ->
    drop' = drop_after drop items.
Proof.
  induction items as [|item items IH]; intros drop drop' buffer buffer'.
  - cbn. now intros [= <- _].
  - cbn [eager_loop drop_after fold_left]. rewrite bind_lift.
    destruct (TableRowDrop.step drop item) as [d|e] eqn:E; [|discriminate].
    apply drop_step_result in E. subst d.
    rewrite bind_write, bind_render.
    destruct (fst _); [|discriminate].
    rewrite bind_write. apply IH.
Qed.

Lemma render_cells_returns {Context : Type} (self : TablerowNode.t Context)
    (context : Context) (row : list object) :
  forall (j : Z) (drop drop' : TableRowDrop.t) (buffer buffer' : TextIO),
    TablerowNode.render_cells self context row j drop buffer
      = (Ok drop', buffer') ->
    drop' = drop_after drop row.
Proof.
  induction row as [|item row IH]; intros j drop drop' buffer buffer'.
  - cbn. now intros [= <- _].
  - cbn [TablerowNode.render_cells drop_after fold_left]. rewrite bind_lift.
    destruct (TableRowDrop.step drop item) as [d|e] eqn:E; [|discriminate].
    apply drop_step_result in E. subst d.
    rewrite bind_write, bind_render.
    destruct (fst _); [|discriminate].
    rewrite bind_write. apply IH.
Qed.

Lemma eager_loop_app {Context : Type} (self : TablerowNode.t Context)
    (context : Context) (l1 l2 : list object) :
  forall (drop : TableRowDrop.t) (buffer : TextIO),
    eager_loop self context (l1 ++ l2) drop buffer =
    match eager_loop self context l1 drop buffer with
    | (Ok drop', buffer') => eager_loop self context l2 drop' buffer'
    | (Raise e, buffer') => (Raise e, buffer')
    end.
Proof.
  induction l1 as [|item l1 IH]; intros drop buffer; [reflexivity|].
  cbn [app eager_loop]. rewrite !bind_lift.
  destruct (TableRowDrop.step drop item) as [d|e]; [|reflexivity].
  rewrite !bind_write, !bind_render.
  destruct (fst _); [|reflexivity].
  rewrite !bind_write. apply IH.
Qed.

Lemma positioned_after (c L R : Z) (items : list object) :
  1 <= c ->
  forall (k : Z) (drop : TableRowDrop.t),
    positioned c L R k (TableRowDrop.tablerow drop) ->
    positioned c L R (k + Z.of_nat (List.length items))
      (TableRowDrop.tablerow (drop_after drop items)).
Proof.
  intros Hc. induction items as [|item items IH]; intros k drop Hk.
  - cbn. now rewrite Z.add_0_r.
  - cbn [drop_after fold_left List.length].
    fold (drop_after (drop_stepped drop item) items).
    replace (k + Z.of_nat (S (List.length items)))
      with (k + 1 + Z.of_nat (List.length items)) by lia.
    apply IH. unfold drop_stepped; cbn [TableRowDrop.tablerow].
    now apply positioned_step.
Qed.

Lemma bind_assoc {A B C : Type} (c : IO A) (k : A -> IO B) (k' : B -> IO C)
    (buffer : TextIO) :
  (x <~ (y <~ c ;; k y) ;; k' x) buffer =
  (y <~ c ;; x <~ k y ;; k' x) buffer.
Proof. unfold io_bind. destruct (c buffer) as [[a|e] b]; reflexivity. Qed.

(** Runs the writes at the head of both sides of an equation. *)
Ltac io_run :=
  repeat first [ rewrite bind_assoc | rewrite bind_write | rewrite bind_ret
               | rewrite bind_lift | progress cbv beta iota ].

Lemma eager_loop_cons {Context : Type} (self : TablerowNode.t Context)
    (context : Context) (item : object) (items : list object)
    (drop : TableRowDrop.t) :
  eager_loop self context (item :: items) drop =
  (drop <~ lift (TableRowDrop.step drop item) ;;
   _ <~ write (opening (TableRowDrop.tablerow drop)) ;;
   _ <~ BlockNode.render (TablerowNode.block self) (extend context drop) ;;
   _ <~ write (closing (TableRowDrop.tablerow drop)) ;;
   eager_loop self context items drop).
Proof. reflexivity. Qed.

Lemma render_cells_cons {Context : Type} (self : TablerowNode.t Context)
    (context : Context) (data : object) (row : list object) (j : Z)
    (drop : TableRowDrop.t) :
  TablerowNode.render_cells self context (data :: row) j drop =
  (drop <~ lift (TableRowDrop.step drop data) ;;
   _ <~ write (td_open (j + 1)) ;;
   _ <~ BlockNode.render (TablerowNode.block self) (extend context drop) ;;
   _ <~ write "</td>" ;;
   TablerowNode.render_cells self context row (j + 1) drop).
Proof. reflexivity. Qed.

(** One row.  From column index [j] of row index [i], the unbuffered loop over
    the cells that complete the row, or end the sequence, writes what the
    interpreter's inner loop writes, with the row's opening tag before it when
    [j] is 0 and the row's closing tag after it. *)
Lemma eager_loop_row {Context : Type} (self : TablerowNode.t Context)
    (context : Context) (c L R i : Z) :
  1 <= c -> 0 <= i -> i + 1 <= R ->
  forall (cells : list object) (j : Z) (drop : TableRowDrop.t)
         (buffer : TextIO),
    0 <= j ->
    positioned c L R (i * c + j) (TableRowDrop.tablerow drop) ->
    cells <> [] ->
    (j + Z.of_nat (List.length cells) = c \/
     i * c + j + Z.of_nat (List.length cells) = L) ->
    j + Z.of_nat (List.length cells) <= c ->
    i * c + j + Z.of_nat (List.length cells) <= L ->
    eager_loop self context cells drop buffer =
    (_ <~ (if j =? 0 then write (tr_open (i + 1)) else ret tt) ;;
     drop' <~ TablerowNode.render_cells self context cells j drop ;;
     _ <~ write "</tr>" ;;
     ret drop') buffer.
Proof.
  intros Hc Hi HR.
  induction cells as [|item cells IH];
    intros j drop buffer Hj Hpos Hne Hend Hfit Hlen; [contradiction|].
  cbn [List.length] in Hend, Hfit, Hlen.
  destruct (positioned_step c L R (i * c + j) _ item Hc Hpos)
    as (Hpos' & Hcol & Hrow).
  assert (Hmod : (i * c + j) mod c = j)
    by (rewrite Z.add_comm, Z.mod_add, Z.mod_small; lia).
  assert (Hdiv : (i * c + j) / c = i)
    by (rewrite Z.add_comm, Z.div_add, Z.div_small; lia).
  rewrite Hmod in Hcol. rewrite Hdiv in Hrow.
  assert (Hn : TableRow.ncols (TableRowDrop.tablerow drop) <> 0)
    by (destruct Hpos as (-> & _); lia).
  assert (Hopen : opening (stepped (TableRowDrop.tablerow drop) item) =
                  String.append
                    (if j =? 0 then tr_open (i + 1) else EmptyString)
                    (td_open (j + 1))).
  { unfold opening. rewrite Hcol, Hrow.
    destruct (Z.eqb_spec (j + 1) 1), (Z.eqb_spec j 0); try lia;
      [|reflexivity].
    destruct (Z.leb_spec (i + 1) (TableRow.nrows
                (stepped (TableRowDrop.tablerow drop) item))) as [_|Hlt];
      [reflexivity|].
    destruct Hpos' as (_ & _ & HR' & _). lia. }
  assert (Hclose : closing (stepped (TableRowDrop.tablerow drop) item) =
                   if (j + 1 =? c) || (i * c + j + 1 =? L)
                   then "</td></tr>"%string else "</td>"%string).
  { unfold closing. rewrite Hcol.
    destruct Hpos' as (-> & -> & _ & _ & -> & _). reflexivity. }
  change (stepped (TableRowDrop.tablerow drop) item)
    with (TableRowDrop.tablerow (drop_stepped drop item)) in Hopen, Hclose.
  rewrite eager_loop_cons, render_cells_cons.
  revert Hopen. destruct (Z.eqb_spec j 0) as [Hj0|Hj0]; intros Hopen;
    io_run; rewrite !(drop_step_stepped _ _ Hn); io_run;
    rewrite Hopen, Hclose, !bind_render;
    (destruct (fst _); rewrite ?append_assoc; [|reflexivity]); io_run.
  all: destruct cells as [|item' cells].
  all: cbn [List.length] in Hend, Hfit, Hlen.
  1, 3: (* the last cell of the row *)
    replace ((j + 1 =? c) || (i * c + j + 1 =? L)) with true
      by (symmetry; apply orb_true_iff; rewrite !Z.eqb_eq; lia);
    cbn [eager_loop TablerowNode.render_cells]; io_run; unfold ret;
    rewrite ?append_assoc; reflexivity.
  all: (* more cells follow *)
    replace ((j + 1 =? c) || (i * c + j + 1 =? L)) with false
      by (symmetry; apply orb_false_iff; rewrite !Z.eqb_neq; lia);
    rewrite (IH (j + 1) (drop_stepped drop item)); try discriminate;
    try (cbn [List.length]; lia);
    try (now replace (i * c + (j + 1)) with (i * c + j + 1) by lia);
    destruct (Z.eqb_spec (j + 1) 0) as [?|_]; try lia;
    io_run; rewrite ?append_assoc; reflexivity.
Qed.

Lemma islice_ok {A : Type} (iterable : list A) (n : Z) :
  0 <= n <= sys_maxsize ->
  islice iterable n =
    Ok (firstn (Z.to_nat n) iterable, skipn (Z.to_nat n) iterable).
Proof.
  intros Hn. unfold islice.
  destruct (Z.ltb_spec n 0); [lia|].
  destruct (Z.ltb_spec sys_maxsize n); [lia|]. reflexivity.
Qed.

Lemma grouper_loop_nil {A : Type} (fuel : nat) (n : Z) :
  0 <= n <= sys_maxsize -> grouper_loop fuel (@nil A) n = Ok [].
Proof.
  intros Hn. destruct fuel; [reflexivity|].
  cbn [grouper_loop]. rewrite islice_ok by exact Hn.
  now rewrite firstn_nil.
Qed.

(** Chunks of a positive size exist, whatever the fuel. *)
Lemma grouper_loop_ok {A : Type} (n : Z) :
  1 <= n <= sys_maxsize ->
  forall (fuel : nat) (iterable : list A),
    exists chunks, grouper_loop fuel iterable n = Ok chunks.
Proof.
  intros Hn. induction fuel as [|fuel IH]; intros iterable.
  - exists []. reflexivity.
  - cbn [grouper_loop]. rewrite islice_ok by lia. cbn [bind].
    destruct (firstn (Z.to_nat n) iterable) as [|x chunk];
      [exists []; reflexivity|].
    destruct (IH (skipn (Z.to_nat n) iterable)) as (chunks & ->).
    eexists. reflexivity.
Qed.

Lemma ceiling_above (L c i : Z) : 1 <= c -> i * c < L -> i + 1 <= ceiling L c.
Proof.
  intros Hc Hi. pose proof (ceiling_spec L c ltac:(lia)). nia.
Qed.

(** The rows.  From the start of row index [i], the interpreter's outer loop
    over the chunks of what is left of the sequence writes what the unbuffered
    loop writes over what is left. *)
Lemma render_rows_eager {Context : Type} (self : TablerowNode.t Context)
    (context : Context) (c L : Z) :
  1 <= c <= sys_maxsize ->
  forall (fuel : nat) (rest : list object) (chunks : list (list object))
         (i : Z) (drop : TableRowDrop.t) (buffer : TextIO),
    (List.length rest < fuel)%nat ->
    0 <= i ->
    positioned c L (ceiling L c) (i * c) (TableRowDrop.tablerow drop) ->
    i * c + Z.of_nat (List.length rest) = L ->
    grouper_loop fuel rest c = Ok chunks ->
    TablerowNode.render_rows self context chunks i drop buffer =
    eager_loop self context rest drop buffer.
Proof.
  intros Hc. induction fuel as [|fuel IH];
    intros rest chunks i drop buffer Hfuel Hi Hpos HL Hchunks; [lia|].
  cbn [grouper_loop] in Hchunks. rewrite islice_ok in Hchunks by lia.
  cbn [bind] in Hchunks.
  destruct rest as [|item rest'].
  { rewrite firstn_nil in Hchunks. injection Hchunks as <-. reflexivity. }
  remember (Z.to_nat c) as n eqn:En.
  destruct n as [|n']; [lia|].
  cbn [firstn skipn] in Hchunks.
  destruct (grouper_loop fuel (skipn n' rest') c) as [chunks'|e] eqn:Erest;
    cbn [bind] in Hchunks; [|discriminate].
  injection Hchunks as <-.
  change (item :: firstn n' rest') with (firstn (S n') (item :: rest')).
  change (skipn n' rest') with (skipn (S n') (item :: rest')) in Erest.
  set (rest := item :: rest') in *. set (n := S n') in *.
  assert (Hne : firstn n rest <> []) by discriminate.
  assert (Hrow : i + 1 <= ceiling L c)
    by (apply ceiling_above; [lia|]; unfold rest in HL; cbn in HL; lia).
  cbn [TablerowNode.render_rows].
  destruct (Nat.le_gt_cases (List.length rest) n) as [Hshort|Hlong].
  - (* the last row *)
    rewrite skipn_all2 in Erest by exact Hshort.
    rewrite grouper_loop_nil in Erest by lia. injection Erest as <-.
    rewrite firstn_all2 by exact Hshort.
    rewrite (eager_loop_row self context c L (ceiling L c) i
               ltac:(lia) Hi Hrow rest 0 drop buffer);
      [ | lia | now rewrite Z.add_0_r | discriminate
        | right; lia | lia | lia ].
    cbn [Z.eqb]. cbn [TablerowNode.render_rows].
    io_run. unfold io_bind.
    destruct (TablerowNode.render_cells _ _ _ _ _ _) as [[d|e] b];
      reflexivity.
  - (* a full row, and more to come *)
    assert (Hlen : List.length (firstn n rest) = n)
      by (rewrite length_firstn; lia).
    replace (eager_loop self context rest drop buffer)
      with (eager_loop self context (firstn n rest ++ skipn n rest) drop
              buffer) by (now rewrite firstn_skipn).
    rewrite eager_loop_app.
    rewrite (eager_loop_row self context c L (ceiling L c) i
               ltac:(lia) Hi Hrow (firstn n rest) 0 drop buffer);
      [ | lia | now rewrite Z.add_0_r | exact Hne
        | left; rewrite Hlen; lia
        | rewrite Hlen; lia
        | rewrite Hlen; lia ].
    cbn [Z.eqb]. io_run. unfold io_bind at 1 3.
    destruct (TablerowNode.render_cells self context (firstn n rest) 0 drop
                (buffer ++ tr_open (i + 1))%string) as [[d|e] b] eqn:Ecells;
      [|reflexivity].
    io_run. unfold ret.
    apply render_cells_returns in Ecells. subst d.
    apply IH.
    + rewrite length_skipn. lia.
    + lia.
    + replace ((i + 1) * c) with (i * c + Z.of_nat (List.length (firstn n rest)))
        by (rewrite Hlen; lia).
      apply positioned_after; [lia | exact Hpos].
    + rewrite length_skipn. lia.
    + exact Erest.
Qed.

(** The interpreter path when the group size is an integer: the chunks, the
    drop, the rows. *)
Lemma render_to_output_rows {Context : Type} (self : TablerowNode.t Context)
    (context : Context) (buffer : TextIO)
    (cols_expression : Context -> result object) (cols : object)
    (items : list object) :
  LoopExpression.cols (TablerowNode.expression self) = Some cols_expression ->
  cols_expression context = Ok cols ->
  isinstance_int cols = true ->
  LoopExpression.evaluate (TablerowNode.expression self) context = Ok items ->
  TablerowNode.render_to_output self context buffer =
  match grouper items (int_value cols) with
  | Ok loop_iter =>
      match TableRowDrop.init
              (LoopExpression.name (TablerowNode.expression self))
              (Z.of_nat (List.length items)) (int_value cols) with
      | Ok drop => TablerowNode.render_rows self context loop_iter 0 drop buffer
      | Raise e => (Raise e, buffer)
      end
  | Raise e => (Raise e, buffer)
  end.
Proof.
  intros Hcols Hvalue Hint Hitems.
  unfold TablerowNode.render_to_output. rewrite Hcols, Hitems.
  io_run. rewrite Hvalue. io_run. rewrite Hint. unfold assert. io_run.
  destruct (grouper items (int_value cols)) as [loop_iter|e]; io_run;
    [|reflexivity].
  destruct (TableRowDrop.init _ _ _) as [drop|e]; reflexivity.
Qed.

(** The drop the tag constructs when the helper's constructor returns. *)
Lemma drop_init_ok (name : string) (length ncols : Z) (tablerow : TableRow.t) :
  TableRow.init name length ncols = Ok tablerow ->
  TableRowDrop.init name length ncols = Ok (TableRowDrop.mk tablerow name []).
Proof.
  intros H. unfold TableRowDrop.init. now rewrite H.
Qed.

(** The buffered loop over the whole sequence, from the drop the tag
    constructs, is seen as the interpreter path is seen. *)
Lemma buffered_loop_render_to_output {Context : Type}
    (self : TablerowNode.t Context) (context : Context) (buffer : TextIO)
    (cols_expression : Context -> result object) (cols : object)
    (items : list object) :
  LoopExpression.cols (TablerowNode.expression self) = Some cols_expression ->
  cols_expression context = Ok cols ->
  isinstance_int cols = true ->
  1 <= int_value cols <= sys_maxsize ->
  LoopExpression.evaluate (TablerowNode.expression self) context = Ok items ->
  Z.of_nat (List.length items) < 2 ^ 53 ->
  exists drop,
    TableRowDrop.init (LoopExpression.name (TablerowNode.expression self))
      (Z.of_nat (List.length items)) (int_value cols) = Ok drop /\
    observe (buffered_loop self context items drop buffer) =
    observe (TablerowNode.render_to_output self context buffer).
Proof.
  intros Hcols Hvalue Hint Hc Hitems Hlen.
  set (name := LoopExpression.name (TablerowNode.expression self)).
  set (L := Z.of_nat (List.length items)) in *.
  set (c := int_value cols) in *.
  assert (Hc' : 1 <= c < 2 ^ 1075).
  { split; [lia|]. apply Z.le_lt_trans with sys_maxsize; [lia | reflexivity]. }
  destruct (init_exact_rows name L c ltac:(lia) Hc')
    as (tablerow & Hinit & Hrows).
  exists (TableRowDrop.mk tablerow name []).
  split; [exact (drop_init_ok _ _ _ _ Hinit)|].
  rewrite (render_to_output_rows self context buffer cols_expression cols
             items Hcols Hvalue Hint Hitems).
  fold c L name. rewrite (drop_init_ok _ _ _ _ Hinit).
  destruct (grouper_loop_ok c Hc (S (List.length items)) items)
    as (chunks & Hchunks).
  unfold grouper. rewrite Hchunks.
  pose proof (positioned_fresh _ _ _ _ Hinit) as Hpos. rewrite Hrows in Hpos.
  rewrite buffered_loop_eager
    by (destruct Hpos as (-> & _); lia).
  f_equal. symmetry.
  apply (render_rows_eager self context c L Hc (S (List.length items)) items
           chunks 0 (TableRowDrop.mk tablerow name []) buffer);
    [lia | lia | exact Hpos | unfold L; lia | exact Hchunks].
Qed.

(** X1, lookahead correctness.  For a group size between 1 and
    [sys.maxsize] and a sequence shorter than [2 ^ 53], driving [step_write]
    over the sequence, with the block rendered after each call and the buffer
    emptied at the end, raises what the interpreter path raises and leaves in
    the buffer what the interpreter path leaves. *)
Theorem buffered_markup_is_interpreter_markup {Context : Type}
    (self : TablerowNode.t Context) (context : Context) (buffer : TextIO)
    (cols_expression : Context -> result object) (cols : object)
    (items : list object) :
  LoopExpression.cols (TablerowNode.expression self) = Some cols_expression ->
  cols_expression context = Ok cols ->
  isinstance_int cols = true ->
  1 <= int_value cols <= sys_maxsize ->
  LoopExpression.evaluate (TablerowNode.expression self) context = Ok items ->
  Z.of_nat (List.length items) < 2 ^ 53 ->
  exists drop,
    TableRowDrop.init (LoopExpression.name (TablerowNode.expression self))
      (Z.of_nat (List.length items)) (int_value cols) = Ok drop /\
    snd (buffered_loop self context items drop buffer) =
      snd (TablerowNode.render_to_output self context buffer) /\
    (forall e,
       fst (buffered_loop self context items drop buffer) = Raise e <->
       fst (TablerowNode.render_to_output self context buffer) = Raise e).
Proof.
  intros Hcols Hvalue Hint Hc Hitems Hlen.
  destruct (buffered_loop_render_to_output self context buffer
              cols_expression cols items Hcols Hvalue Hint Hc Hitems Hlen)
    as (drop & Hinit & Hsame).
  exists drop. split; [exact Hinit|].
  unfold observe in Hsame.
  destruct (buffered_loop self context items drop buffer) as [[d|e] b],
    (TablerowNode.render_to_output self context buffer) as [[d'|e'] b'];
    cbn [fst snd] in *; inversion Hsame; subst;
    (split; [reflexivity | intros e0; split; congruence]).
Qed.

(** ** The compiled code *)

Lemma resolve_size (key : string) (table : SymbolTable.t) :
  SymbolTable.size (snd (SymbolTable.resolve key table)) =
  SymbolTable.size table.
Proof.
  destruct table as [outer store size free_symbols]. cbn [SymbolTable.resolve].
  destruct (find _ store); [reflexivity|].
  destruct outer as [enclosing|]; [|reflexivity].
  destruct (SymbolTable.resolve key enclosing) as [[original|] enclosing'];
    [|reflexivity].
  destruct (SymbolTable.symbol_scope original); reflexivity.
Qed.

Lemma resolve_all_size (references : list string) (table : SymbolTable.t) :
  SymbolTable.size
    (fold_left (fun table key => snd (SymbolTable.resolve key table))
       references table) = SymbolTable.size table.
Proof.
  revert table. induction references as [|key references IH]; intros table;
    [reflexivity|].
  cbn [fold_left]. now rewrite IH, resolve_size.
Qed.

Lemma load_symbols_code {Context : Type}
    (symbols : list SymbolTable.Symbol) (compiler : Compiler.t Context) :
  Compiler.current_instructions (fold_left Compiler.load_symbol symbols
                                   compiler) =
    Compiler.current_instructions compiler ++ map Compiler.LOAD symbols /\
  Compiler.constants (fold_left Compiler.load_symbol symbols compiler) =
    Compiler.constants compiler.
Proof.
  revert compiler. induction symbols as [|s symbols IH]; intros compiler.
  - cbn. now rewrite app_nil_r.
  - cbn [fold_left map]. destruct (IH (Compiler.load_symbol compiler s))
      as (-> & ->).
    cbn. now rewrite <- app_assoc.
Qed.

(** What [compile_node] leaves in a compiler that starts a template: one
    constant, the block, and the code that enters it. *)
Lemma compile_node_code {Context : Type} (max_locals : nat)
    (table : SymbolTable.t) (references : list string)
    (self : TablerowNode.t Context)
    (cols_expression : Context -> result object) :
  (2 <= max_locals)%nat ->
  LoopExpression.cols (TablerowNode.expression self) = Some cols_expression ->
  let free_symbols :=
    block_free_symbols table
      (LoopExpression.name (TablerowNode.expression self)) references in
  exists compiler,
    TablerowNode.compile_node references self
      (Compiler.mk max_locals [] table [[]]) = Ok compiler /\
    Compiler.constants compiler =
      [Compiler.compiled_block (block_code self) 2
         (LoopExpression.num_arguments (TablerowNode.expression self))
         (List.length free_symbols)] /\
    Compiler.current_instructions compiler =
      entry_code self cols_expression free_symbols.
Proof.
  intros Hmax Hcols free_symbols.
  destruct max_locals as [|[|max_locals]]; [lia | lia |].
  unfold TablerowNode.compile_node, Compiler.define, SymbolTable.define.
  cbn [Compiler.enter_scope Compiler.symbol_table Compiler.max_locals
         SymbolTable.size SymbolTable.outer SymbolTable.store
         SymbolTable.free_symbols Nat.leb bind fst snd
         Compiler.constants Compiler.scopes].
  cbn [Compiler.compile_block Compiler.emit Compiler.symbol_table
         Compiler.max_locals Compiler.constants Compiler.scopes
         Compiler.current_instructions hd tl app List.length].
  rewrite resolve_all_size. cbn [SymbolTable.size Nat.eqb negb].
  fold (block_free_symbols table
          (LoopExpression.name (TablerowNode.expression self)) references).
  fold free_symbols.
  cbn [Compiler.leave_scope Compiler.add_constant_block Compiler.emit
         Compiler.symbol_table Compiler.max_locals Compiler.constants
         Compiler.scopes Compiler.current_instructions hd tl app List.length
         Compiler.num_arguments Compiler.num_free].
  rewrite Hcols.
  eexists. split; [reflexivity|].
  cbn [Compiler.emit Compiler.constants Compiler.current_instructions
         Compiler.scopes hd].
  match goal with
  | |- context [fold_left Compiler.load_symbol ?l ?c] =>
      destruct (load_symbols_code l c) as (Hcode & Hconst)
  end.
  fold (@Compiler.current_instructions Context) in *.
  rewrite ?Hconst.
  split; [reflexivity|].
  unfold Compiler.current_instructions in Hcode |- *.
  rewrite Hcode. cbn [Compiler.scopes hd app].
  unfold entry_code. cbn [app]. rewrite <- !app_assoc. reflexivity.
Qed.

(** ** Running the compiled code *)

(** Unfolds the machine's state in a goal about [VM.run]. *)
Ltac vm_simpl :=
  try unfold VM.continue; try unfold VM.next; try unfold VM.jump;
  cbn [VM.constants VM.max_frames VM.frames VM.stack VM.code VM.ip VM.free
         VM.loop VM.execute].

(** Rewrites with [step], a lemma about one instruction of a run; [tac]
    shows what the instruction does. *)
Ltac vm_step_with step tac :=
  erewrite step;
  [ | reflexivity | reflexivity | vm_simpl; tac; reflexivity ]; vm_simpl.

Section Run.

Context {Context : Type}.
Variable context : Context.

Lemma run_step (fuel : nat) (vm vm' : VM.t Context) (f : VM.Frame Context)
    (callers : list (VM.Frame Context))
    (instruction : Compiler.Instruction Context) (buffer buffer' : TextIO) :
  VM.frames vm = f :: callers ->
  nth_error (VM.code f) (VM.ip f) = Some instruction ->
  VM.execute context instruction vm f callers buffer = (Ok vm', buffer') ->
  VM.run context (S fuel) vm buffer = VM.run context fuel vm' buffer'.
Proof.
  intros Hframes Hfetch Hexec. cbn [VM.run]. rewrite Hframes, Hfetch.
  unfold io_bind. now rewrite Hexec.
Qed.

Lemma run_raise (fuel : nat) (vm : VM.t Context) (f : VM.Frame Context)
    (callers : list (VM.Frame Context))
    (instruction : Compiler.Instruction Context) (e : exception)
    (buffer buffer' : TextIO) :
  VM.frames vm = f :: callers ->
  nth_error (VM.code f) (VM.ip f) = Some instruction ->
  VM.execute context instruction vm f callers buffer = (Raise e, buffer') ->
  VM.run context (S fuel) vm buffer = (Raise e, buffer').
Proof.
  intros Hframes Hfetch Hexec. cbn [VM.run]. rewrite Hframes, Hfetch.
  unfold io_bind. now rewrite Hexec.
Qed.

Lemma run_halted (fuel : nat) (vm : VM.t Context) (f : VM.Frame Context)
    (callers : list (VM.Frame Context)) (buffer : TextIO) :
  VM.frames vm = f :: callers ->
  nth_error (VM.code f) (VM.ip f) = None ->
  VM.run context fuel vm buffer = (Ok VM.Halted, buffer).
Proof.
  intros Hframes Hfetch. destruct fuel; cbn [VM.run];
    rewrite Hframes, Hfetch; reflexivity.
Qed.

(** The loads of the captured variables: one instruction each, each pushing
    its symbol. *)
Lemma run_loads (symbols : list SymbolTable.Symbol) :
  forall (before after : list (Compiler.Instruction Context))
         (constants : list (Compiler.CompiledBlock Context))
         (max_frames : nat) (free : list (VM.Operand Context))
         (loop : option (list object * TableRowDrop.t))
         (callers : list (VM.Frame Context))
         (stack : list (VM.Operand Context)) (fuel : nat) (buffer : TextIO),
    VM.run context (List.length symbols + fuel)
      (VM.mk constants max_frames
         (VM.frame (before ++ map Compiler.LOAD symbols ++ after)
            (List.length before) free loop :: callers) stack) buffer =
    VM.run context fuel
      (VM.mk constants max_frames
         (VM.frame (before ++ map Compiler.LOAD symbols ++ after)
            (List.length before + List.length symbols) free loop :: callers)
         (rev (map VM.Captured symbols) ++ stack)) buffer.
Proof.
  induction symbols as [|s symbols IH];
    intros before after constants max_frames free loop callers stack fuel
      buffer.
  - cbn. now rewrite Nat.add_0_r.
  - cbn [List.length Nat.add map rev].
    erewrite (run_step _ _ _ _ _ (Compiler.LOAD s));
      [ | reflexivity | | reflexivity].
    2: { cbn [VM.code VM.ip]. rewrite nth_error_app2 by lia.
         now rewrite Nat.sub_diag. }
    unfold VM.continue, VM.next, VM.jump.
    cbn [VM.constants VM.max_frames VM.code VM.ip VM.free VM.loop VM.stack].
    specialize (IH (before ++ [Compiler.LOAD s]) after constants max_frames
                  free loop callers (VM.Captured s :: stack) fuel buffer).
    rewrite <- !app_assoc, length_app in IH. cbn [app List.length] in IH.
    rewrite Nat.add_1_r in IH. cbn [app]. rewrite IH.
    rewrite <- app_assoc. cbn [app].
    now rewrite <- Nat.add_succ_comm.
Qed.

(** The loop of the tag's block.  With an element bound, three instructions
    per element still to come, and three to leave, write what [loop_tail]
    writes; then the caller goes on. *)
Lemma run_loop (self : TablerowNode.t Context) (remaining : list object) :
  forall (constants : list (Compiler.CompiledBlock Context))
         (max_frames : nat) (free : list (VM.Operand Context))
         (drop : TableRowDrop.t) (callers : list (VM.Frame Context))
         (stack : list (VM.Operand Context)) (fuel : nat) (buffer : TextIO),
    VM.run context (3 * S (List.length remaining) + fuel)
      (VM.mk constants max_frames
         (VM.frame (block_code self) 0 free (Some (remaining, drop))
            :: callers) stack) buffer =
    match loop_tail self context remaining drop buffer with
    | (Ok _, buffer') =>
        VM.run context fuel (VM.mk constants max_frames callers stack) buffer'
    | (Raise e, buffer') => (Raise e, buffer')
    end.
Proof.
  induction remaining as [|item remaining IH];
    intros constants max_frames free drop callers stack fuel buffer.
  - replace (3 * S (List.length (@nil object)) + fuel)%nat
      with (S (S (S fuel))) by (cbn [List.length]; lia).
    cbn [loop_tail]. rewrite bind_render.
    destruct (fst (TablerowNode.block self (extend context drop))) eqn:Eblock.
    + vm_step_with run_step ltac:(rewrite bind_render, Eblock).
      vm_step_with run_step idtac.
      destruct (TableRowDrop.empty_exit_buffer drop _) as [[d|e] b] eqn:Eexit.
      * vm_step_with run_step ltac:(unfold io_bind; rewrite Eexit). reflexivity.
      * vm_step_with run_raise ltac:(unfold io_bind; rewrite Eexit). reflexivity.
    + vm_step_with run_raise ltac:(rewrite bind_render, Eblock). reflexivity.
  - replace (3 * S (List.length (item :: remaining)) + fuel)%nat
      with (S (S (S (3 * S (List.length remaining) + fuel))))
      by (cbn [List.length]; lia).
    cbn [loop_tail]. rewrite bind_render.
    destruct (fst (TablerowNode.block self (extend context drop))) eqn:Eblock.
    + vm_step_with run_step ltac:(rewrite bind_render, Eblock).
      unfold io_bind at 1.
      destruct (TableRowDrop.step_write drop item _) as [[d|e] b] eqn:Estep.
      * vm_step_with run_step ltac:(unfold io_bind; rewrite Estep).
        vm_step_with run_step idtac.
        apply IH.
      * vm_step_with run_raise ltac:(unfold io_bind; rewrite Estep). reflexivity.
    + vm_step_with run_raise ltac:(rewrite bind_render, Eblock). reflexivity.
Qed.

End Run.

Lemma skipn_captured {Context : Type} (symbols : list SymbolTable.Symbol)
    (below : list (VM.Operand Context)) :
  skipn (List.length symbols)
    (rev (map VM.Captured (rev symbols)) ++ below) = below /\
  firstn (List.length symbols)
    (rev (map VM.Captured (rev symbols)) ++ below) =
    map VM.Captured symbols /\
  List.length (rev (map (@VM.Captured Context) (rev symbols)) ++ below) =
    (List.length symbols + List.length below)%nat.
Proof.
  rewrite <- map_rev, rev_involutive.
  assert (Hlen : List.length (map (@VM.Captured Context) symbols) =
                 List.length symbols) by apply length_map.
  rewrite <- Hlen at 1 2. rewrite skipn_app, firstn_app, Nat.sub_diag.
  rewrite skipn_all, firstn_all, length_app, Hlen. cbn [skipn firstn app].
  now rewrite app_nil_r.
Qed.

(** The compiled tag runs the buffered loop.  With a group size that is an
    integer and a drop that can be constructed, enough fuel makes the machine
    halt, or raise, having written what the buffered loop writes. *)
Lemma render_compiled_buffered_loop {Context : Type}
    (max_locals max_frames : nat) (table : SymbolTable.t)
    (references : list string) (self : TablerowNode.t Context)
    (context : Context) (buffer : TextIO)
    (cols_expression : Context -> result object) (cols : object)
    (items : list object) (drop : TableRowDrop.t) (more : nat) :
  (2 <= max_locals)%nat ->
  (2 <= max_frames)%nat ->
  LoopExpression.cols (TablerowNode.expression self) = Some cols_expression ->
  cols_expression context = Ok cols ->
  isinstance_int cols = true ->
  LoopExpression.evaluate (TablerowNode.expression self) context = Ok items ->
  TableRowDrop.init (LoopExpression.name (TablerowNode.expression self))
    (Z.of_nat (List.length items)) (int_value cols) = Ok drop ->
  VM.render_compiled max_locals max_frames table references self context
    (List.length
       (block_free_symbols table
          (LoopExpression.name (TablerowNode.expression self)) references)
     + 4 + 3 * List.length items + more) buffer =
  match buffered_loop self context items drop buffer with
  | (Ok _, buffer') => (Ok VM.Halted, buffer')
  | (Raise e, buffer') => (Raise e, buffer')
  end.
Proof.
  intros Hlocals Hframes Hcols Hvalue Hint Hitems Hinit.
  destruct (compile_node_code max_locals table references self cols_expression
              Hlocals Hcols) as (compiler & Hcompile & Hconst & Hcode).
  cbv zeta in Hconst, Hcode.
  set (symbols := block_free_symbols table
                    (LoopExpression.name (TablerowNode.expression self))
                    references) in *.
  unfold VM.render_compiled. rewrite Hcompile, bind_lift, Hconst, Hcode.
  unfold entry_code.
  set (block := Compiler.compiled_block (block_code self) 2
                  (LoopExpression.num_arguments (TablerowNode.expression self))
                  (List.length symbols)).
  set (enter := [Compiler.EXPRESSION cols_expression;
                 Compiler.LOOP (TablerowNode.expression self);
                 Compiler.TAB
                   (LoopExpression.num_arguments
                      (TablerowNode.expression self))
                   (List.length symbols)]).
  replace (List.length symbols + 4 + 3 * List.length items + more)%nat
    with (S (List.length (rev symbols)
             + S (S (S (3 * List.length items + more)))))
    by (rewrite length_rev; lia).
  (* the constant *)
  vm_step_with (@run_step Context) idtac.
  (* the captured variables *)
  rewrite (run_loads context (rev symbols) [Compiler.CONSTANT 0] enter).
  set (code := [Compiler.CONSTANT 0] ++ map Compiler.LOAD (rev symbols)
                 ++ enter).
  set (ip := (List.length [@Compiler.CONSTANT Context 0]
              + List.length (rev symbols))%nat).
  assert (Hfetch : forall k,
             nth_error code (k + ip) = nth_error enter k).
  { intros k. unfold code, ip. rewrite app_assoc.
    rewrite nth_error_app2 by (rewrite length_app, length_map; lia).
    f_equal. rewrite length_app, length_map. lia. }
  (* the group size and the sequence *)
  erewrite (run_step _ _ _ _ _ _ (Compiler.EXPRESSION cols_expression));
    [ | reflexivity | exact (Hfetch 0%nat)
      | vm_simpl; rewrite Hvalue; reflexivity ].
  vm_simpl.
  erewrite (run_step _ _ _ _ _ _
              (Compiler.LOOP (TablerowNode.expression self)));
    [ | reflexivity | exact (Hfetch 1%nat)
      | vm_simpl; rewrite Hitems; reflexivity ].
  vm_simpl.
  (* entering the loop *)
  destruct (skipn_captured symbols [VM.Block block])
    as (Hskip & Hfirst & Hbelow).
  assert (Hunder :
            (List.length (rev (map (@VM.Captured Context) (rev symbols))
                            ++ [VM.Block block])
             <? List.length symbols)%nat = false)
    by (rewrite Hbelow; apply Nat.ltb_ge; lia).
  assert (Hhalt : forall stack text,
             VM.run context more
               (VM.mk [block] max_frames
                  [VM.frame code (S (S (S ip))) [] None] stack) text =
             (Ok VM.Halted, text)).
  { intros stack text. eapply run_halted; [reflexivity|].
    apply nth_error_None. unfold code, ip, enter.
    cbn [VM.code VM.ip]. rewrite !length_app, !length_map.
    cbn [List.length]. lia. }
  destruct items as [|item remaining].
  - erewrite (run_step _ _ _ _ _ _ (Compiler.TAB _ _));
      [ | reflexivity | exact (Hfetch 2%nat) | ].
    2: { vm_simpl. unfold VM.enter_iteration. vm_simpl.
         rewrite Hskip, Hunder.
         unfold VM.group_size. rewrite Hint, bind_ret, bind_lift, Hinit.
         reflexivity. }
    vm_simpl. cbn [buffered_loop ret].
    eapply run_halted; [reflexivity|].
    apply nth_error_None. unfold code, ip, enter.
    cbn [VM.code VM.ip]. rewrite !length_app, !length_map.
    cbn [List.length]. lia.
  - cbn [buffered_loop]. unfold io_bind at 1.
    assert (Hdepth : (max_frames <=? 1)%nat = false)
      by (apply Nat.leb_gt; lia).
    destruct (TableRowDrop.step_write drop item buffer) as [[d|e] b]
      eqn:Estep.
    + erewrite (run_step _ _ _ _ _ _ (Compiler.TAB _ _));
        [ | reflexivity | exact (Hfetch 2%nat) | ].
      2: { vm_simpl. unfold VM.enter_iteration. vm_simpl.
           rewrite Hskip, Hunder, Hfirst.
           unfold VM.group_size. rewrite Hint, bind_ret, bind_lift, Hinit.
           cbn [List.length]. rewrite Hdepth.
           unfold io_bind. rewrite Estep. reflexivity. }
      vm_simpl.
      replace (3 * List.length (item :: remaining) + more)%nat
        with (3 * S (List.length remaining) + more)%nat
        by (cbn [List.length]; lia).
      change (Compiler.instructions block) with (block_code self).
      rewrite run_loop.
      destruct (loop_tail self context remaining d b) as [[d'|e] b'];
        [apply Hhalt | reflexivity].
    + erewrite (run_raise _ _ _ _ _ (Compiler.TAB _ _));
        [ | reflexivity | exact (Hfetch 2%nat) | ].
      2: { vm_simpl. unfold VM.enter_iteration. vm_simpl.
           rewrite Hskip, Hunder.
           unfold VM.group_size. rewrite Hint, bind_ret, bind_lift, Hinit.
           cbn [List.length]. rewrite Hdepth.
           unfold io_bind. rewrite Estep. reflexivity. }
      reflexivity.
Qed.




Lemma buffered_markup_is_interpreter_markup_witness :
  exists drop,
    TableRowDrop.init "x" 5 3 = Ok drop /\
    snd (buffered_loop (sample_node (Some (PyInt 3)) sample_items) tt
           sample_items drop EmptyString) =
      snd (TablerowNode.render_to_output
             (sample_node (Some (PyInt 3)) sample_items) tt EmptyString) /\
    (forall e,
       fst (buffered_loop (sample_node (Some (PyInt 3)) sample_items) tt
              sample_items drop EmptyString) = Raise e <->
       fst (TablerowNode.render_to_output
              (sample_node (Some (PyInt 3)) sample_items) tt EmptyString)
         = Raise e).
Proof.
  apply (buffered_markup_is_interpreter_markup
           (sample_node (Some (PyInt 3)) sample_items) tt EmptyString
           (fun _ => Ok (PyInt 3)) (PyInt 3) sample_items);
    [ reflexivity | reflexivity | reflexivity
    | split; vm_compute; discriminate | reflexivity | reflexivity ].
Defined.

(** ** Further properties of the interpreter path and the helper *)

(** [TableRowDrop.__contains__] holds for the fixed key [tablerowloop] and
    for the loop variable's name, and for no other key. *)
Lemma contains_the_two_keys (drop : TableRowDrop.t) (key : string) :
  TableRowDrop.contains drop key = true <->
  key = "tablerowloop"%string \/ key = TableRowDrop.name drop.
Proof.
  unfold TableRowDrop.contains. cbn [existsb].
  destruct (String.eqb_spec key "tablerowloop") as [E1|E1],
    (String.eqb_spec key (TableRowDrop.name drop)) as [E2|E2]; cbn;
    split; intros H; try reflexivity; try discriminate; auto.
  destruct H; contradiction.
Qed.

(** X4.  With a group size between 1 and [sys.maxsize] and an empty sequence,
    the interpreter path returns normally, writes nothing, and takes no
    step. *)
Theorem empty_sequence_in_groups_writes_nothing {Context : Type}
    (self : TablerowNode.t Context) (context : Context) (buffer : TextIO)
    (cols_expression : Context -> result object) (cols : object) :
  LoopExpression.cols (TablerowNode.expression self) = Some cols_expression ->
  cols_expression context = Ok cols ->
  isinstance_int cols = true ->
  1 <= int_value cols <= sys_maxsize ->
  LoopExpression.evaluate (TablerowNode.expression self) context = Ok [] ->
  exists drop,
    TableRow.index (TableRowDrop.tablerow drop) = 0 /\
    TablerowNode.render_to_output self context buffer = (Ok drop, buffer).
Proof.
  intros Hcols Hvalue Hint Hc Hitems.
  rewrite (render_to_output_rows self context buffer cols_expression cols []
             Hcols Hvalue Hint Hitems).
  unfold grouper. rewrite grouper_loop_nil by lia.
  destruct (init_returns (LoopExpression.name (TablerowNode.expression self))
              (Z.of_nat (List.length (@nil object))) (int_value cols))
    as (tablerow & Hinit); [reflexivity | lia |].
  rewrite (drop_init_ok _ _ _ _ Hinit).
  eexists. split; [|reflexivity].
  cbn [TableRowDrop.tablerow].
  now destruct (init_fields _ _ _ _ Hinit) as (_ & _ & _ & _ & -> & _).
Qed.

Lemma empty_sequence_in_groups_writes_nothing_witness :
  exists drop,
    TableRow.index (TableRowDrop.tablerow drop) = 0 /\
    TablerowNode.render_to_output (sample_node (Some (PyInt 3)) []) tt
      EmptyString = (Ok drop, EmptyString).
Proof.
  apply (empty_sequence_in_groups_writes_nothing
           (sample_node (Some (PyInt 3)) []) tt EmptyString
           (fun _ => Ok (PyInt 3)) (PyInt 3));
    [ reflexivity | reflexivity | reflexivity
    | split; vm_compute; discriminate | reflexivity ].
Defined.

(** X5.  A group size that is an integer but no size of a group: 0 makes the
    interpreter path raise [ZeroDivisionError], a negative one or one beyond
    [sys.maxsize] makes it raise [ValueError]; either way nothing has been
    written. *)
Theorem bad_group_size_raises_before_writing {Context : Type}
    (self : TablerowNode.t Context) (context : Context) (buffer : TextIO)
    (cols_expression : Context -> result object) (cols : object)
    (items : list object) :
  LoopExpression.cols (TablerowNode.expression self) = Some cols_expression ->
  cols_expression context = Ok cols ->
  isinstance_int cols = true ->
  LoopExpression.evaluate (TablerowNode.expression self) context = Ok items ->
  (int_value cols = 0 ->
   TablerowNode.render_to_output self context buffer =
     (Raise ZeroDivisionError, buffer)) /\
  (int_value cols < 0 \/ sys_maxsize < int_value cols ->
   TablerowNode.render_to_output self context buffer =
     (Raise ValueError, buffer)).
Proof.
  intros Hcols Hvalue Hint Hitems.
  rewrite (render_to_output_rows self context buffer cols_expression cols
             items Hcols Hvalue Hint Hitems).
  split.
  - intros ->. unfold grouper. cbn [grouper_loop].
    rewrite islice_ok by (split; [lia | discriminate]).
    cbn [Z.to_nat firstn bind]. reflexivity.
  - intros Hc. unfold grouper. cbn [grouper_loop]. unfold islice.
    replace ((int_value cols <? 0) || (sys_maxsize <? int_value cols))
      with true; [reflexivity|].
    symmetry. apply orb_true_iff. rewrite !Z.ltb_lt. exact Hc.
Qed.

Lemma bad_group_size_raises_before_writing_witness :
  TablerowNode.render_to_output
    (sample_node (Some (PyInt 0)) sample_items) tt EmptyString =
    (Raise ZeroDivisionError, EmptyString) /\
  TablerowNode.render_to_output
    (sample_node (Some (PyInt (-1))) sample_items) tt EmptyString =
    (Raise ValueError, EmptyString).
Proof.
  split.
  - apply (bad_group_size_raises_before_writing
             (sample_node (Some (PyInt 0)) sample_items) tt EmptyString
             (fun _ => Ok (PyInt 0)) (PyInt 0) sample_items
             eq_refl eq_refl eq_refl eq_refl).
    reflexivity.
  - apply (bad_group_size_raises_before_writing
             (sample_node (Some (PyInt (-1))) sample_items) tt EmptyString
             (fun _ => Ok (PyInt (-1))) (PyInt (-1)) sample_items
             eq_refl eq_refl eq_refl eq_refl).
    left. reflexivity.
Defined.

Lemma steps_positioned (c L R : Z) (items : list object) :
  1 <= c ->
  forall (k : Z) (self : TableRow.t),
    positioned c L R k self ->
    exists self',
      TableRow.steps self items = Ok self' /\
      positioned c L R (k + Z.of_nat (List.length items)) self'.
Proof.
  intros Hc. induction items as [|item items IH]; intros k self Hpos.
  - exists self. cbn. now rewrite Z.add_0_r.
  - cbn [TableRow.steps List.length].
    rewrite step_stepped by (destruct Hpos as (-> & _); lia).
    cbn [bind].
    destruct (IH (k + 1) (stepped self item)) as (self' & Hs & Hpos');
      [now apply positioned_step|].
    exists self'. split; [exact Hs|].
    now replace (k + Z.of_nat (S (List.length items)))
      with (k + 1 + Z.of_nat (List.length items)) by lia.
Qed.

(** X6.  On a helper constructed with a positive group size, after the steps
    over [items] the row counter is the number of groups begun: the ceiling
    of the number of items over the group size, which is
    [index0 / ncols + 1]. *)
Theorem row_counts_groups (name : string) (length ncols : Z)
    (self : TableRow.t) (items : list object) :
  1 <= ncols ->
  TableRow.init name length ncols = Ok self ->
  exists self',
    TableRow.steps self items = Ok self' /\
    TableRow.row self' = ceiling (Z.of_nat (List.length items)) ncols /\
    TableRow.row self' = TableRow.index0 self' / ncols + 1.
Proof.
  intros Hn Hinit.
  destruct (steps_positioned ncols length (TableRow.nrows self) items Hn 0
              self (positioned_fresh _ _ _ _ Hinit))
    as (self' & Hs & (_ & _ & _ & Hi0 & _ & Hrow)).
  exists self'. split; [exact Hs|]. rewrite Z.add_0_l in *.
  split; [exact Hrow|].
  rewrite Hrow, Hi0.
  replace (Z.of_nat (List.length items))
    with (Z.of_nat (List.length items) - 1 + 1) at 1 by lia.
  apply ceiling_succ. exact Hn.
Qed.

Lemma row_counts_groups_witness :
  exists self self',
    TableRow.init "x" 5 3 = Ok self /\
    TableRow.steps self sample_items = Ok self' /\
    TableRow.row self' = ceiling 5 3.
Proof.
  assert (Hinit : exists self, TableRow.init "x" 5 3 = Ok self)
    by (vm_compute; eexists; reflexivity).
  destruct Hinit as (self & Hinit). exists self.
  destruct (row_counts_groups "x" 5 3 self sample_items)
    as (self' & Hs & Hrow & _); [lia | exact Hinit |].
  exists self'. split; [exact Hinit|]. split; [exact Hs | exact Hrow].
Defined.

(** ** The two mappings *)

(** X2.  The drop as a mapping: for every key, membership, being among the
    keys [__iter__] yields and a lookup that returns are the same thing;
    [__len__] is the number of keys yielded; and the keys yielded are distinct
    exactly when the loop variable is not itself named [tablerowloop]. *)
Theorem drop_mapping_agrees (drop : TableRowDrop.t) (key : string) :
  (TableRowDrop.contains drop key = true <->
   In key (TableRowDrop.iter drop)) /\
  (TableRowDrop.contains drop key = true <->
   exists v, TableRowDrop.getitem drop key = Ok v) /\
  TableRowDrop.len drop = List.length (TableRowDrop.iter drop) /\
  (NoDup (TableRowDrop.iter drop) <->
   TableRowDrop.name drop <> "tablerowloop"%string).
Proof.
  pose proof (contains_the_two_keys drop key) as Hc.
  split; [|split; [|split]].
  - rewrite Hc. unfold TableRowDrop.iter. cbn [In].
    split; [intros [->| ->]; auto | intros [<-|[<-|[]]]; auto].
  - rewrite Hc. unfold TableRowDrop.getitem.
    destruct (String.eqb_spec key "tablerowloop") as [E1|E1].
    + split; [eexists; reflexivity | auto].
    + destruct (String.eqb_spec key (TableRowDrop.name drop)) as [E2|E2].
      * split; [eexists; reflexivity | auto].
      * split; [intros [?|?]; contradiction | intros (v & Hv); discriminate].
  - reflexivity.
  - unfold TableRowDrop.iter. split.
    + intros Hnd Hname. inversion Hnd as [|x l Hnotin _]; subst.
      apply Hnotin. left. exact Hname.
    + intros Hname. constructor.
      * intros [E|[]]. congruence.
      * constructor; [intros [] | constructor].
Qed.

(** X3.  The helper as a mapping: [__len__] is the number of keys [__iter__]
    yields, the keys are distinct, a lookup returns exactly for the keys
    yielded, and the other slots, the row counter among them, are not
    reachable through a lookup. *)
Theorem helper_mapping_agrees (self : TableRow.t) :
  TableRow.len self = List.length (TableRow.iter self) /\
  NoDup (TableRow.iter self) /\
  (forall key,
     In key (TableRow.iter self) <->
     exists v, TableRow.getitem self key = Ok v) /\
  Forall (fun key => TableRow.getitem self key = Raise (KeyError key))
    ["name"; "ncols"; "item"; "keys"; "row"; "nrows"]%string.
Proof.
  split; [reflexivity|]. split; [|split].
  - unfold TableRow.iter, TableRow.keys.
    repeat (constructor; [cbn [In]; intuition discriminate|]). constructor.
  - intros key. split.
    + unfold TableRow.iter, TableRow.keys. cbn [In].
      intros H. repeat destruct H as [<-|H]; try (eexists; reflexivity).
      contradiction.
    + intros (v & Hv). unfold TableRow.getitem in Hv.
      destruct (existsb (String.eqb key) TableRow.keys) eqn:E;
        [|discriminate].
      apply existsb_exists in E. destruct E as (k & Hin & Hk).
      apply String.eqb_eq in Hk. now subst k.
  - repeat constructor.
Qed.

(** ** The chunks of [grouper] *)

Lemma grouper_loop_partitions {A : Type} (n : Z) :
  1 <= n <= sys_maxsize ->
  forall (fuel : nat) (iterable : list A),
    (List.length iterable < fuel)%nat ->
    exists chunks,
      grouper_loop fuel iterable n = Ok chunks /\
      List.concat chunks = iterable /\
      Forall (fun chunk => chunk <> [] /\ Z.of_nat (List.length chunk) <= n)
        chunks /\
      (forall i, (S i < List.length chunks)%nat ->
                 Z.of_nat (List.length (nth i chunks [])) = n) /\
      Z.of_nat (List.length chunks) =
        ceiling (Z.of_nat (List.length iterable)) n.
Proof.
  intros Hn. induction fuel as [|fuel IH]; intros iterable Hfuel; [lia|].
  cbn [grouper_loop]. rewrite islice_ok by lia. cbn [bind].
  destruct iterable as [|x iterable'].
  { rewrite firstn_nil. exists []. cbn. repeat split; try constructor.
    intros i Hi. lia. }
  remember (Z.to_nat n) as k eqn:Ek.
  destruct k as [|k']; [lia|].
  cbn [firstn skipn].
  destruct (IH (skipn k' iterable')) as (chunks & -> & Hcat & Hall & Hfull & Hcount).
  { rewrite length_skipn. cbn [List.length] in Hfuel. lia. }
  cbn [bind].
  set (chunk := x :: firstn k' iterable').
  exists (chunk :: chunks).
  assert (Hlen : List.length chunk = Nat.min (S k') (S (List.length iterable')))
    by (unfold chunk; cbn [List.length]; rewrite length_firstn; lia).
  split; [reflexivity|]. split; [|split; [|split]].
  - cbn [List.concat]. rewrite Hcat. unfold chunk. cbn [app].
    now rewrite firstn_skipn.
  - constructor; [|exact Hall]. split; [discriminate | lia].
  - intros [|i] Hi; cbn [nth List.length] in *.
    + (* more chunks follow, so this one is full *)
      destruct chunks as [|next chunks']; [cbn in Hi; lia|].
      assert (Hrest : skipn k' iterable' <> []).
      { rewrite <- Hcat. inversion Hall as [|? ? (Hne & _) _]; subst.
        destruct next; [contradiction | discriminate]. }
      assert (k' < List.length iterable')%nat.
      { destruct (Nat.lt_ge_cases k' (List.length iterable')) as [?|Hge];
          [assumption|]. now rewrite skipn_all2 in Hrest by exact Hge. }
      lia.
    + apply Hfull. lia.
  - cbn [List.length]. rewrite Nat2Z.inj_succ, Hcount, length_skipn.
    symmetry. apply ceiling_unique; [lia|].
    pose proof (ceiling_spec (Z.of_nat (List.length iterable' - k')) n
                  ltac:(lia)) as Hc.
    destruct (Nat.le_gt_cases (List.length iterable') k') as [Hshort|Hlong].
    + replace (List.length iterable' - k')%nat with 0%nat in * by lia.
      assert (ceiling (Z.of_nat 0) n = 0) as E0 by reflexivity.
      rewrite E0 in *. lia.
    + rewrite Nat2Z.inj_sub in * by lia. nia.
Qed.

(** X7.  For a size between 1 and [sys.maxsize], [grouper] returns chunks
    that put together are the sequence, in order: no chunk is empty or longer
    than the size, every chunk but the last has exactly that many elements,
    and the number of chunks is the ceiling of the length over the size. *)
Theorem grouper_partitions {A : Type} (iterable : list A) (n : Z) :
  1 <= n <= sys_maxsize ->
  exists chunks,
    grouper iterable n = Ok chunks /\
    List.concat chunks = iterable /\
    Forall (fun chunk => chunk <> [] /\ Z.of_nat (List.length chunk) <= n)
      chunks /\
    (forall i, (S i < List.length chunks)%nat ->
               Z.of_nat (List.length (nth i chunks [])) = n) /\
    Z.of_nat (List.length chunks) =
      ceiling (Z.of_nat (List.length iterable)) n.
Proof.
  intros Hn. apply grouper_loop_partitions; [exact Hn | lia].
Qed.

Lemma grouper_partitions_witness :
  exists chunks,
    grouper sample_items 3 = Ok chunks /\
    List.concat chunks = sample_items /\
    Z.of_nat (List.length chunks) = ceiling 5 3.
Proof.
  destruct (grouper_partitions sample_items 3)
    as (chunks & Hg & Hcat & _ & _ & Hcount);
    [split; vm_compute; discriminate|].
  exists chunks. split; [exact Hg|]. split; [exact Hcat | exact Hcount].
Defined.

(** ** A constructed helper *)

Lemma init_nonzero (name : string) (length ncols : Z) (self : TableRow.t) :
  TableRow.init name length ncols = Ok self -> ncols <> 0.
Proof.
  unfold TableRow.init, int_true_divide. intros H ->. cbn in H. discriminate.
Qed.

(** X8.  The constructor guards the modulo of [step]: a helper that
    [TableRow.__init__] returned has a group size other than 0, so no
    sequence of steps on it raises, whatever the sign of the group size and
    however many items there are.  After the steps [index] is the number of
    items, [index0 = index - 1], [rindex = length + 1 - index] and
    [rindex0 = rindex - 1]; after at least one, [first] holds exactly at
    [index = 1] and [last] exactly at [index = length]; and with a negative
    group size [col0] lies in [(ncols, 0]] and [col_last] is never set. *)
Theorem constructed_helper_steps (name : string) (length ncols : Z)
    (self : TableRow.t) (items : list object) :
  TableRow.init name length ncols = Ok self ->
  ncols <> 0 /\
  exists self',
    TableRow.steps self items = Ok self' /\
    TableRow.index self' = Z.of_nat (List.length items) /\
    TableRow.index0 self' = TableRow.index self' - 1 /\
    TableRow.rindex self' = length + 1 - TableRow.index self' /\
    TableRow.rindex0 self' = TableRow.rindex self' - 1 /\
    (items <> [] ->
     (TableRow.first self' = true <-> TableRow.index self' = 1) /\
     (TableRow.last self' = true <-> TableRow.index self' = length) /\
     (ncols < 0 ->
      ncols < TableRow.col0 self' <= 0 /\ TableRow.col_last self' = false)).
Proof.
  intros Hinit.
  pose proof (init_nonzero _ _ _ _ Hinit) as Hn.
  destruct (init_fields _ _ _ _ Hinit)
    as (_ & Hl & Hc & _ & Hi & Hi0 & Hr & Hr0 & _).
  split; [exact Hn|].
  destruct (steps_counters items self)
    as (self' & Hs & _ & _ & _ & _ & H5 & H6 & H7 & H8); [congruence|].
  exists self'. split; [exact Hs|].
  repeat (split; [lia|]).
  intros Hitems.
  destruct (exists_last Hitems) as (l & x & ->).
  destruct (steps_counters l self)
    as (before & Hb & Hbc & _ & _ & _ & Hb5 & Hb6 & Hb7 & Hb8); [congruence|].
  assert (Hs' : TableRow.steps self (l ++ [x]) = Ok (stepped before x)).
  { rewrite steps_app, Hb. cbn [bind TableRow.steps].
    rewrite step_stepped by congruence. reflexivity. }
  rewrite Hs' in Hs. injection Hs as <-.
  rewrite length_app in *. cbn [List.length] in *.
  unfold stepped; cbn [TableRow.first TableRow.last TableRow.index
    TableRow.col0 TableRow.col_last TableRow.col].
  rewrite !Z.eqb_eq.
  split; [lia|]. split; [lia|].
  intros Hneg. rewrite Hbc, Hc.
  pose proof (Z.mod_neg_bound (TableRow.index0 before + 1) ncols Hneg) as Hm.
  split; [exact Hm|]. apply Z.eqb_neq. lia.
Qed.

Lemma constructed_helper_steps_witness :
  exists self self',
    TableRow.init "x" 5 (-3) = Ok self /\
    TableRow.steps self sample_items = Ok self' /\
    TableRow.index self' = 5 /\
    TableRow.rindex self' = 1 /\
    (TableRow.last self' = true <-> TableRow.index self' = 5).
Proof.
  assert (Hinit : exists self, TableRow.init "x" 5 (-3) = Ok self)
    by (vm_compute; eexists; reflexivity).
  destruct Hinit as (self & Hinit). exists self.
  destruct (constructed_helper_steps "x" 5 (-3) self sample_items Hinit)
    as (_ & self' & Hs & Hi & _ & Hr & _ & Hflags).
  exists self'. split; [exact Hinit|]. split; [exact Hs|].
  split; [exact Hi|]. split; [rewrite Hr, Hi; reflexivity|].
  apply Hflags. discriminate.
Defined.

(** ** The pending closing markup *)

Lemma step_writes_pending (items : list object) :
  forall (drop : TableRowDrop.t) (buffer : TextIO),
    TableRow.ncols (TableRowDrop.tablerow drop) <> 0 ->
    (List.length (TableRowDrop._exit drop) <= 1)%nat ->
    exists drop' out,
      step_writes drop items buffer = (Ok drop', out) /\
      TableRowDrop.name drop' = TableRowDrop.name drop /\
      TableRow.steps (TableRowDrop.tablerow drop) items =
        Ok (TableRowDrop.tablerow drop') /\
      TableRowDrop._exit drop' =
        match items with
        | [] => TableRowDrop._exit drop
        | _ => [closing (TableRowDrop.tablerow drop')]
        end.
Proof.
  induction items as [|item items IH]; intros drop buffer Hn Hpending.
  - exists drop, buffer. repeat split.
  - cbn [step_writes].
    erewrite bind_of by (apply step_write_stepped; exact Hn).
    set (drop1 := TableRowDrop.mk _ _ _).
    destruct (IH drop1 (buffer
        ++ match TableRowDrop._exit drop with
           | [] => EmptyString
           | s :: _ => List.last (TableRowDrop._exit drop) s
           end
        ++ opening (stepped (TableRowDrop.tablerow drop) item))%string)
      as (drop' & out & Hrun & Hname & Htablerow & Hexit).
    { exact Hn. }
    { unfold drop1; cbn [TableRowDrop._exit].
      destruct (TableRowDrop._exit drop) as [|s [|s' pending]];
        cbn in *; lia. }
    exists drop', out. split; [exact Hrun|]. split; [exact Hname|].
    split.
    { cbn [TableRow.steps]. rewrite step_stepped by exact Hn. exact Htablerow. }
    rewrite Hexit. destruct items as [|item' items]; [|reflexivity].
    cbn in Hrun. injection Hrun as <- _.
    unfold drop1; cbn [TableRowDrop._exit TableRowDrop.tablerow].
    now destruct (TableRowDrop._exit drop) as [|s [|s' pending]];
      [..|cbn in Hpending; lia].
Qed.

(** X9.  The closing markup of a cell is held back and written once.  On a
    drop that [TableRowDrop.__init__] returned, calls of [step_write] over
    any items return normally and leave no pending markup when there was no
    item, and otherwise exactly one entry: the closing markup of the last
    cell.  [empty_exit_buffer] then writes that entry and nothing else,
    leaves the stack empty and the helper as it was; called again it writes
    nothing: the [IndexError] of popping the empty stack does not reach the
    caller. *)
Theorem pending_markup_is_flushed_once (name : string) (length ncols : Z)
    (drop : TableRowDrop.t) (items : list object) (buffer : TextIO) :
  TableRowDrop.init name length ncols = Ok drop ->
  exists drop' out,
    step_writes drop items buffer = (Ok drop', out) /\
    TableRow.steps (TableRowDrop.tablerow drop) items =
      Ok (TableRowDrop.tablerow drop') /\
    TableRowDrop._exit drop' =
      match items with
      | [] => []
      | _ => [closing (TableRowDrop.tablerow drop')]
      end /\
    let flushed := TableRowDrop.mk (TableRowDrop.tablerow drop')
                     (TableRowDrop.name drop') [] in
    TableRowDrop.empty_exit_buffer drop' out =
      (Ok flushed,
       (out ++ match items with
               | [] => EmptyString
               | _ => closing (TableRowDrop.tablerow drop')
               end)%string) /\
    forall buffer',
      TableRowDrop.empty_exit_buffer flushed buffer' = (Ok flushed, buffer').
Proof.
  intros Hinit. unfold TableRowDrop.init in Hinit.
  destruct (TableRow.init name length ncols) as [tablerow|e] eqn:Htablerow;
    cbn [bind] in Hinit; [|discriminate].
  injection Hinit as <-.
  destruct (step_writes_pending items
              (TableRowDrop.mk tablerow name []) buffer)
    as (drop' & out & Hrun & _ & Hsteps & Hexit).
  { cbn [TableRowDrop.tablerow].
    destruct (init_fields _ _ _ _ Htablerow) as (_ & _ & -> & _).
    exact (init_nonzero _ _ _ _ Htablerow). }
  { cbn. lia. }
  exists drop', out. split; [exact Hrun|]. split; [exact Hsteps|].
  cbn [TableRowDrop._exit] in Hexit.
  split; [exact Hexit|]. cbv zeta. split; [|reflexivity].
  unfold TableRowDrop.empty_exit_buffer. rewrite Hexit.
  destruct drop' as [tablerow' name' pending'].
  destruct items; cbn.
  - cbn in Hexit. subst pending'. unfold ret. now rewrite append_nil_r.
  - unfold io_bind, write, ret. reflexivity.
Qed.

Lemma pending_markup_is_flushed_once_witness :
  exists drop drop' out,
    TableRowDrop.init "x" 5 3 = Ok drop /\
    step_writes drop sample_items EmptyString = (Ok drop', out) /\
    TableRowDrop._exit drop' = [closing (TableRowDrop.tablerow drop')].
Proof.
  assert (Hinit : exists drop, TableRowDrop.init "x" 5 3 = Ok drop)
    by (vm_compute; eexists; reflexivity).
  destruct Hinit as (drop & Hinit). exists drop.
  destruct (pending_markup_is_flushed_once "x" 5 3 drop sample_items
              EmptyString Hinit)
    as (drop' & out & Hrun & _ & Hexit & _).
  exists drop', out. split; [exact Hinit|]. split; [exact Hrun | exact Hexit].
Defined.

(** ** An exception raised by the block *)

Lemma drop_after_app (drop : TableRowDrop.t) (l1 l2 : list object) :
  drop_after drop (l1 ++ l2) = drop_after (drop_after drop l1) l2.
Proof. unfold drop_after. apply fold_left_app. Qed.

Section Block.

Context {Context : Type}.
Variable self : TablerowNode.t Context.
Variable context : Context.

Lemma returns_in_tail (x : object) (seen : list object)
    (drop : TableRowDrop.t) :
  returns_in self context (x :: seen) drop ->
  returns_in self context seen (drop_stepped drop x).
Proof.
  intros H p d rest E. apply (H (x :: p) d rest). now rewrite E.
Qed.

Lemma returns_in_app (l1 l2 : list object) (drop : TableRowDrop.t) :
  returns_in self context (l1 ++ l2) drop ->
  returns_in self context l1 drop /\
  returns_in self context l2 (drop_after drop l1).
Proof.
  intros H. split.
  - intros p d rest E. apply (H p d (rest ++ l2)).
    rewrite E, <- app_assoc. reflexivity.
  - intros p d rest E. rewrite <- drop_after_app, app_assoc.
    apply (H (l1 ++ p) d rest). rewrite E, <- app_assoc. reflexivity.
Qed.

Lemma render_cells_until (row : list object) :
  forall (j : Z) (drop : TableRowDrop.t) (buffer : TextIO),
    TableRow.ncols (TableRowDrop.tablerow drop) <> 0 ->
    returns_in self context row drop ->
    TablerowNode.render_cells self context row j drop buffer =
      (Ok (drop_after drop row),
       (buffer ++ cells_text self context row j drop)%string).
Proof.
  induction row as [|x row IH]; intros j drop buffer Hn Hok.
  - cbn. now rewrite append_nil_r.
  - rewrite render_cells_cons. io_run.
    rewrite (drop_step_stepped _ _ Hn). io_run.
    rewrite bind_render.
    pose proof (Hok [] x row eq_refl) as Hx.
    cbn [app drop_after fold_left] in Hx. rewrite Hx. io_run.
    rewrite IH; [| exact Hn | now apply returns_in_tail].
    cbn [cells_text drop_after fold_left].
    rewrite !append_assoc. reflexivity.
Qed.

Lemma render_cells_raise (before : list object) (data : object)
    (after : list object) (e : exception) :
  forall (j : Z) (drop : TableRowDrop.t) (buffer : TextIO),
    TableRow.ncols (TableRowDrop.tablerow drop) <> 0 ->
    returns_in self context before drop ->
    fst (TablerowNode.block self
           (extend context (drop_after drop (before ++ [data])))) = Raise e ->
    TablerowNode.render_cells self context (before ++ data :: after) j drop
      buffer =
      (Raise e,
       (buffer ++ cells_text self context before j drop
          ++ cell_tag (j + Z.of_nat (List.length before) + 1)
          ++ snd (TablerowNode.block self
                    (extend context (drop_after drop (before ++ [data])))))
         %string).
Proof.
  induction before as [|x before IH]; intros j drop buffer Hn Hok Hraise.
  - cbn [app]. rewrite render_cells_cons. io_run.
    rewrite (drop_step_stepped _ _ Hn). io_run.
    rewrite bind_render. cbn [app drop_after fold_left] in Hraise.
    rewrite Hraise. cbn [cells_text List.length app drop_after fold_left].
    rewrite Z.add_0_r, !append_assoc. reflexivity.
  - cbn [app]. rewrite render_cells_cons. io_run.
    rewrite (drop_step_stepped _ _ Hn). io_run.
    rewrite bind_render.
    pose proof (Hok [] x before eq_refl) as Hx.
    cbn [app drop_after fold_left] in Hx. rewrite Hx. io_run.
    rewrite (IH (j + 1) (drop_stepped drop x));
      [| exact Hn | now apply returns_in_tail | exact Hraise].
    cbn [cells_text List.length app drop_after fold_left].
    rewrite Nat2Z.inj_succ, !append_assoc.
    replace (j + 1 + Z.of_nat (List.length before) + 1)
      with (j + Z.succ (Z.of_nat (List.length before)) + 1) by lia.
    reflexivity.
Qed.

Lemma render_rows_raise (rows_before : list (list object))
    (before : list object) (data : object) (after : list object)
    (rows_after : list (list object)) (e : exception) :
  forall (i : Z) (drop : TableRowDrop.t) (buffer : TextIO),
    TableRow.ncols (TableRowDrop.tablerow drop) <> 0 ->
    returns_in self context (List.concat rows_before ++ before) drop ->
    fst (TablerowNode.block self
           (extend context
              (drop_after drop
                 ((List.concat rows_before ++ before) ++ [data])))) = Raise e ->
    TablerowNode.render_rows self context
      (rows_before ++ (before ++ data :: after) :: rows_after) i drop buffer =
      (Raise e,
       (buffer ++ rows_text self context rows_before i drop
          ++ row_tag (i + Z.of_nat (List.length rows_before) + 1)
          ++ cells_text self context before 0
               (drop_after drop (List.concat rows_before))
          ++ cell_tag (Z.of_nat (List.length before) + 1)
          ++ snd (TablerowNode.block self
                    (extend context
                       (drop_after drop
                          ((List.concat rows_before ++ before) ++ [data])))))
         %string).
Proof.
  induction rows_before as [|row rows_before IH];
    intros i drop buffer Hn Hok Hraise.
  - cbn [app List.concat] in *. cbn [TablerowNode.render_rows]. io_run.
    erewrite bind_of
      by (apply render_cells_raise; [exact Hn | exact Hok | exact Hraise]).
    cbn [rows_text List.length drop_after fold_left].
    rewrite Z.add_0_r, !append_assoc. reflexivity.
  - cbn [app List.concat] in *. cbn [TablerowNode.render_rows]. io_run.
    rewrite <- app_assoc in Hok. destruct (returns_in_app _ _ _ Hok)
      as (Hrow & Hrest).
    erewrite bind_of by (apply render_cells_until; [exact Hn | exact Hrow]).
    io_run.
    rewrite (IH (i + 1) (drop_after drop row));
      [| now rewrite drop_after_ncols | exact Hrest
       | now rewrite <- drop_after_app, !app_assoc in * ].
    cbn [rows_text List.length].
    rewrite <- !drop_after_app, !app_assoc.
    rewrite Nat2Z.inj_succ, !append_assoc.
    replace (i + 1 + Z.of_nat (List.length rows_before) + 1)
      with (i + Z.succ (Z.of_nat (List.length rows_before)) + 1) by lia.
    reflexivity.
Qed.

End Block.

(** X10.  An exception raised by the block leaves [render_to_output] with
    the cell open.  Let the rows be the chunks of [grouper], or the one row
    of all items when the tag has no [cols], and let the block return
    normally in every cell before one in which it raises.  Then
    [render_to_output] raises that exception, and the buffer holds exactly:
    the rows before, whole; the opening tag of the row of that cell, with the
    row's number; the cells before it in the row, whole; the opening tag of
    the cell, with the cell's number in the row, and what the block wrote
    before it raised.  Nothing follows that: no closing tag and no markup of
    a later item. *)
Theorem block_exception_leaves_cell_open {Context : Type}
    (self : TablerowNode.t Context) (context : Context) (buffer : TextIO)
    (items : list object) (c : Z) (drop : TableRowDrop.t)
    (rows_before : list (list object)) (before : list object) (data : object)
    (after : list object) (rows_after : list (list object)) (e : exception) :
  LoopExpression.evaluate (TablerowNode.expression self) context = Ok items ->
  match LoopExpression.cols (TablerowNode.expression self) with
  | Some cols_expression =>
      exists cols,
        cols_expression context = Ok cols /\
        isinstance_int cols = true /\
        int_value cols = c /\
        grouper items c =
          Ok (rows_before ++ (before ++ data :: after) :: rows_after)
  | None =>
      c = 1 /\
      [items] = rows_before ++ (before ++ data :: after) :: rows_after
  end ->
  TableRowDrop.init (LoopExpression.name (TablerowNode.expression self))
    (Z.of_nat (List.length items)) c = Ok drop ->
  returns_in self context (List.concat rows_before ++ before) drop ->
  fst (TablerowNode.block self
         (extend context
            (drop_after drop ((List.concat rows_before ++ before) ++ [data]))))
    = Raise e ->
  TablerowNode.render_to_output self context buffer =
    (Raise e,
     (buffer ++ rows_text self context rows_before 0 drop
        ++ row_tag (Z.of_nat (List.length rows_before) + 1)
        ++ cells_text self context before 0
             (drop_after drop (List.concat rows_before))
        ++ cell_tag (Z.of_nat (List.length before) + 1)
        ++ snd (TablerowNode.block self
                  (extend context
                     (drop_after drop
                        ((List.concat rows_before ++ before) ++ [data])))))
       %string).
Proof.
  intros Hitems Hrows Hinit Hok Hraise.
  assert (Hn : TableRow.ncols (TableRowDrop.tablerow drop) <> 0).
  { unfold TableRowDrop.init in Hinit.
    destruct (TableRow.init _ _ c) as [tablerow|e'] eqn:Htablerow;
      cbn [bind] in Hinit; [|discriminate].
    injection Hinit as <-. cbn [TableRowDrop.tablerow].
    destruct (init_fields _ _ _ _ Htablerow) as (_ & _ & -> & _).
    exact (init_nonzero _ _ _ _ Htablerow). }
  pose proof (render_rows_raise self context rows_before before data after
                rows_after e 0 drop buffer Hn Hok Hraise) as Hrun.
  rewrite Z.add_0_l in Hrun.
  unfold TablerowNode.render_to_output. io_run. rewrite Hitems.
  destruct (LoopExpression.cols (TablerowNode.expression self))
    as [cols_expression|].
  - destruct Hrows as (cols & Hcols & Hint & Hc & Hgrouper).
    io_run. rewrite Hcols. io_run. rewrite Hint. unfold assert. io_run.
    rewrite Hc, Hgrouper. io_run. rewrite Hinit. exact Hrun.
  - destruct Hrows as (-> & Hone). io_run. rewrite Hinit, Hone. exact Hrun.
Qed.

Lemma block_exception_leaves_cell_open_witness :
  TablerowNode.render_to_output (failing_node (Some (PyInt 3)) sample_items 4)
    tt EmptyString =
    (Raise Error,
     ("<tr class=" ++ quotation_mark ++ "row1" ++ quotation_mark ++ ">"
        ++ "<td class=" ++ quotation_mark ++ "col1" ++ quotation_mark
        ++ "></td>"
        ++ "<td class=" ++ quotation_mark ++ "col2" ++ quotation_mark
        ++ "></td>"
        ++ "<td class=" ++ quotation_mark ++ "col3" ++ quotation_mark
        ++ "></td>" ++ "</tr>"
        ++ "<tr class=" ++ quotation_mark ++ "row2" ++ quotation_mark ++ ">"
        ++ "<td class=" ++ quotation_mark ++ "col1" ++ quotation_mark
        ++ ">!")%string).
Proof.
  assert (Hinit : exists drop, TableRowDrop.init "x" 5 3 = Ok drop)
    by (vm_compute; eexists; reflexivity).
  destruct Hinit as (drop & Hinit).
  rewrite (block_exception_leaves_cell_open
             (failing_node (Some (PyInt 3)) sample_items 4) tt EmptyString
             sample_items 3 drop [[PyInt 1; PyInt 2; PyInt 3]] [] (PyInt 4)
             [PyInt 5] [] Error).
  - revert Hinit. vm_compute. intros [= <-]. reflexivity.
  - reflexivity.
  - exists (PyInt 3). repeat split. 
  - exact Hinit.
  - revert Hinit. vm_compute. intros [= <-].
    intros [|a [|b [|c' [|d' p]]]] d rest E; cbn in E; try discriminate;
      injection E as <-; subst; try reflexivity;
      try (now destruct p; discriminate).
  - revert Hinit. vm_compute. intros [= <-]. reflexivity.
Defined.

(** ** The exceptions *)

Lemma append_cancel_l (a s : string) :
  (a ++ s)%string = a -> s = EmptyString.
Proof.
  induction a as [|ch a IH]; cbn; [trivial|].
  intros [= E]. exact (IH E).
Qed.

(** X11.  [Error.__str__] shows a location exactly when there is one to
    show: the text is that of the same exception without [linenum] and
    [filename] exactly when the line number is absent or 0 and the file name
    is absent or the empty string, the values Python takes for false.  For a
    file name given as a string, [LiquidSyntaxError.name] is that string, and
    when it is not empty the text ends with [ of ] and that name. *)
Theorem error_str_shows_location (object_str : object -> string)
    (tuple_str : list object -> string) (args : list object)
    (linenum : option Z) (filename : option Exceptions.file) :
  let self := Exceptions.mk args linenum filename in
  let bare := Exceptions.mk args None None in
  (Exceptions.str_ object_str tuple_str self =
     Exceptions.str_ object_str tuple_str bare <->
   (linenum = None \/ linenum = Some 0) /\
   (filename = None \/
    filename = Some (Exceptions.FileName EmptyString))) /\
  forall s,
    filename = Some (Exceptions.FileName s) ->
    Exceptions.name self = s /\
    (s <> EmptyString ->
     exists text,
       Exceptions.str_ object_str tuple_str self =
         (text ++ " of " ++ Exceptions.name self)%string).
Proof.
  cbv zeta. split.
  - unfold Exceptions.str_, Exceptions.linenum_truthy,
      Exceptions.filename_truthy, Exceptions.filename_str,
      Exceptions.exception_str.
    cbn [Exceptions.args Exceptions.linenum Exceptions.filename].
    set (msg := match args with
                | [] => EmptyString
                | [a] => object_str a
                | _ => tuple_str args
                end).
    split.
    + intros E.
      destruct linenum as [n|]; [destruct (Z.eqb_spec n 0) as [->|Hn]|];
        cbn [negb] in E.
      * split; [now right|].
        destruct filename as [[s|p]|]; [| |now left].
        -- destruct (String.eqb_spec s EmptyString) as [->|Hs];
             [now right|].
           cbn [negb] in E. apply append_cancel_l in E. discriminate.
        -- apply append_cancel_l in E. discriminate.
      * exfalso.
        destruct filename as [[s|p]|];
          [destruct (String.eqb s EmptyString)| |]; cbn [negb] in E;
          rewrite ?append_assoc in E; apply append_cancel_l in E;
          discriminate.
      * split; [now left|].
        destruct filename as [[s|p]|]; [| |now left].
        -- destruct (String.eqb_spec s EmptyString) as [->|Hs];
             [now right|].
           cbn [negb] in E. apply append_cancel_l in E. discriminate.
        -- apply append_cancel_l in E. discriminate.
    + intros ([-> | ->] & [-> | ->]); reflexivity.
  - intros s ->. unfold Exceptions.name, Exceptions.str_,
      Exceptions.filename_truthy, Exceptions.filename_str.
    cbn [Exceptions.filename].
    destruct (String.eqb_spec s EmptyString) as [->|Hs]; cbn [negb].
    + split; [reflexivity | intros H; now contradiction H].
    + split; [reflexivity|]. intros _. eexists. reflexivity.
Qed.

Lemma error_str_shows_location_witness :
  exists text,
    Exceptions.str_ (fun _ => "bad tag"%string) (fun _ => EmptyString)
      (Exceptions.mk [PyStr "bad tag"] (Some 3)
         (Some (Exceptions.FileName "index.liquid"))) =
      (text ++ " of index.liquid")%string.
Proof.
  destruct (error_str_shows_location (fun _ => "bad tag"%string)
              (fun _ => EmptyString) [PyStr "bad tag"] (Some 3)
              (Some (Exceptions.FileName "index.liquid"))) as (_ & Hname).
  destruct (Hname "index.liquid"%string eq_refl) as (_ & Htext).
  destruct Htext as (text & E); [discriminate|].
  exists text. exact E.
Defined.

(** X12.  [lookup_warning] finds a warning by the very class, not by
    inheritance: a class that is in [WARNINGS] gets the warning written
    there, and every other class, the subclasses of the classes in the table
    among them, gets the base [LiquidWarning].  Whatever the class, the
    result is [LiquidWarning] or one of its subclasses, and each class of
    the table is a subclass of [Error]. *)
Theorem lookup_warning_is_by_exact_class (exc : Exceptions.class) :
  Exceptions.issubclass (Exceptions.lookup_warning exc)
    Exceptions.LiquidWarning = true /\
  (forall warning,
     In (exc, warning) Exceptions.WARNINGS ->
     Exceptions.lookup_warning exc = warning /\
     Exceptions.issubclass exc Exceptions.Error = true) /\
  ((forall warning, ~ In (exc, warning) Exceptions.WARNINGS) ->
   Exceptions.lookup_warning exc = Exceptions.LiquidWarning) /\
  (forall key warning,
     In (key, warning) Exceptions.WARNINGS ->
     Exceptions.issubclass exc key = true ->
     exc <> key ->
     Exceptions.lookup_warning exc = Exceptions.LiquidWarning).
Proof.
  split; [now destruct exc|]. split; [|split].
  - intros warning Hin. cbn in Hin.
    repeat (destruct Hin as [[= <- <-]|Hin]; [now split|]).
    contradiction.
  - intros Hout.
    destruct exc; try reflexivity; exfalso; eapply Hout; cbn; eauto 6.
  - intros key warning Hin Hsub Hne. cbn in Hin.
    repeat (destruct Hin as [[= <- <-]|Hin];
            [destruct exc; try reflexivity; try discriminate Hsub;
             now contradiction Hne|]).
    contradiction.
Qed.

Lemma lookup_warning_is_by_exact_class_witness :
  Exceptions.lookup_warning Exceptions.LiquidSyntaxError =
    Exceptions.LiquidSyntaxWarning /\
  Exceptions.lookup_warning Exceptions.RequiredBlockError =
    Exceptions.LiquidWarning.
Proof.
  split.
  - apply (lookup_warning_is_by_exact_class Exceptions.LiquidSyntaxError).
    cbn. now left.
  - destruct (lookup_warning_is_by_exact_class Exceptions.RequiredBlockError)
      as (_ & _ & _ & Hsub).
    apply (Hsub Exceptions.LiquidSyntaxError Exceptions.LiquidSyntaxWarning).
    + cbn. now left.
    + reflexivity.
    + discriminate.
Defined.

(** ** Exceptions before the first write *)

(** X13.  An exception of the loop expression, or of the [cols] expression
    after the loop expression returned, leaves [render_to_output] as it is,
    with nothing written.  The loop expression is evaluated first: when it
    raises, the [cols] expression is not looked at. *)
Theorem setup_exception_writes_nothing {Context : Type}
    (self : TablerowNode.t Context) (context : Context) (buffer : TextIO)
    (e : exception) :
  (LoopExpression.evaluate (TablerowNode.expression self) context = Raise e ->
   TablerowNode.render_to_output self context buffer = (Raise e, buffer)) /\
  (forall items cols_expression,
     LoopExpression.evaluate (TablerowNode.expression self) context
       = Ok items ->
     LoopExpression.cols (TablerowNode.expression self)
       = Some cols_expression ->
     cols_expression context = Raise e ->
     TablerowNode.render_to_output self context buffer = (Raise e, buffer)).
Proof.
  split.
  - intros Hitems. unfold TablerowNode.render_to_output. io_run.
    now rewrite Hitems.
  - intros items cols_expression Hitems Hcols Hraise.
    unfold TablerowNode.render_to_output. io_run.
    rewrite Hitems, Hcols. io_run. now rewrite Hraise.
Qed.

Lemma setup_exception_writes_nothing_witness :
  TablerowNode.render_to_output
    (TablerowNode.mk
       (LoopExpression.mk "x" (Some (fun _ : unit => Raise LiquidTypeError))
          (fun _ => Raise Error) 1)
       (fun _ => (Ok tt, "cell"%string))) tt "before"%string =
    (Raise Error, "before"%string) /\
  TablerowNode.render_to_output
    (TablerowNode.mk
       (LoopExpression.mk "x" (Some (fun _ : unit => Raise LiquidTypeError))
          (fun _ => Ok sample_items) 1)
       (fun _ => (Ok tt, "cell"%string))) tt "before"%string =
    (Raise LiquidTypeError, "before"%string).
Proof.
  split.
  - now apply setup_exception_writes_nothing.
  - now apply (setup_exception_writes_nothing _ tt "before"%string
                 LiquidTypeError) with (items := sample_items)
                 (cols_expression := fun _ : unit => Raise LiquidTypeError).
Defined.
